(** * WinWhisper: the recording-session lifecycle manager

    A shallow embedding of [createMediaRecorderServiceWeb] (the local
    capture backend of the media recorder service) together with the
    two module-level helpers it relies on, [getFirstAvailableStream] and
    [getStreamForDeviceId].

    The browser is an oracle: a [Platform] gives, for a hidden world
    state, the outcome of every call the service makes
    ([navigator.mediaDevices.getUserMedia], [enumerateDevices],
    [new MediaRecorder], [track.stop], ...).  Every call the service makes
    to the platform, every toast and every mutation callback is recorded,
    in order, in a trace of [Event]s, so that statements such as "no
    acquisition is attempted" or "[onSettled] fires last" are statements
    about that trace. *)

From Stdlib Require Import String List Bool Arith NArith Lia.
Import ListNotations.
Open Scope string_scope.
Open Scope list_scope.

(* ================================================================== *)
(** * Results, errors and browser data *)
(* ================================================================== *)

(** [Result<T, E>] of @epicenterhq/result: [{ ok: true, data }] or
    [{ ok: false, error }]. *)
Inductive Result (E T : Type) : Type :=
| Ok (data : T)
| Err (error : E).
Arguments Ok {E T} data.
Arguments Err {E T} error.

Definition is_ok {E T} (r : Result E T) : bool :=
  match r with Ok _ => true | Err _ => false end.

(** A value thrown by the platform (a [DOMException]), kept by name. *)
Definition JsException := string.

(** [WhisperingErrProperties]: a title, a description and an action that
    is either [{ type: 'none' }] or [{ type: 'more-details', error }]. *)
Inductive ErrAction : Type :=
| ActionNone
| ActionMoreDetails (error : ErrCause)
with ErrCause : Type :=
| Thrown (e : JsException)
| NewError (message : string)
| Wrapped (e : WhisperingErr)
with WhisperingErr : Type :=
| WhisperingError (title description : string) (action : ErrAction).

Definition err_title (e : WhisperingErr) : string :=
  match e with WhisperingError t _ _ => t end.

(** A [Blob]: its bytes and its [type].  [new Blob(parts, { type })]
    concatenates the parts in order. *)
Record Blob : Type := { blob_bytes : list Byte.byte; blob_type : string }.

Definition blob_size (b : Blob) : nat := length (blob_bytes b).

Definition new_Blob (parts : list Blob) (type : string) : Blob :=
  {| blob_bytes := concat (map blob_bytes parts); blob_type := type |}.

Record MediaStreamTrack : Type := { track_id : nat }.

Record MediaStream : Type :=
  { stream_id : nat; getTracks : list MediaStreamTrack }.

Record MediaRecorder : Type := { recorder_id : nat; mimeType : string }.

Inductive MediaDeviceKind : Type := audioinput | audiooutput | videoinput.

Record MediaDeviceInfo : Type :=
  { dev_deviceId : string; dev_label : string; dev_kind : MediaDeviceKind }.

Definition is_audioinput (device : MediaDeviceInfo) : bool :=
  match dev_kind device with audioinput => true | _ => false end.

(** The two shapes of constraints the service passes to [getUserMedia]:
    [{ audio: true }] and
    [{ audio: { deviceId: { exact }, channelCount, sampleRate } }]. *)
Inductive MediaStreamConstraints : Type :=
| AudioAny
| AudioExact (exact : string) (channelCount sampleRate : N).

Record RecordingSessionSettings : Type :=
  { deviceId : string; bitsPerSecond : N }.

Record Recorder : Type :=
  { mediaRecorder : MediaRecorder;
    recordedChunks : list Blob;
    recordingId : string }.

Record RecordingSession : Type :=
  { settings : RecordingSessionSettings;
    stream : MediaStream;
    recorder : option Recorder }.

Definition TIMESLICE_MS : N := 1000.

(* ================================================================== *)
(** * The trace *)
(* ================================================================== *)

Inductive ToastKind : Type := loading | info.

(** What [onSuccess] is handed: nothing, the finished blob, or (for the
    stream acquisition) the stream. *)
Inductive Payload : Type :=
| PVoid
| PBlob (b : Blob)
| PStream (s : MediaStream).

Inductive Event : Type :=
| EvToast (k : ToastKind) (title description : string)
| EvGetUserMedia (c : MediaStreamConstraints)
                 (r : Result JsException MediaStream)
| EvEnumerateDevices (r : Result JsException (list MediaDeviceInfo))
| EvTrackStop (t : MediaStreamTrack)
| EvNewMediaRecorder (s : MediaStream) (bps : N)
                     (r : Result JsException MediaRecorder)
| EvRecorderStart (r : MediaRecorder) (timeslice : N)
| EvRecorderStop (r : MediaRecorder)
| EvOnMutate
| EvOnSuccess (data : Payload)
| EvOnError (e : WhisperingErr)
| EvOnSettled.

Definition is_callback (e : Event) : bool :=
  match e with
  | EvOnMutate | EvOnSuccess _ | EvOnError _ | EvOnSettled => true
  | _ => false
  end.

Definition is_toast (e : Event) : bool :=
  match e with EvToast _ _ _ => true | _ => false end.

(** The part of a trace the caller sees, and the part the browser sees. *)
Definition callbacks (tr : list Event) : list Event := filter is_callback tr.

Definition platform_calls (tr : list Event) : list Event :=
  filter (fun e => negb (is_callback e || is_toast e)) tr.

Definition is_success (e : Event) : bool :=
  match e with EvOnSuccess _ => true | _ => false end.
Definition is_error (e : Event) : bool :=
  match e with EvOnError _ => true | _ => false end.
Definition is_settled (e : Event) : bool :=
  match e with EvOnSettled => true | _ => false end.

Definition count_success (tr : list Event) : nat := length (filter is_success tr).
Definition count_error (tr : list Event) : nat := length (filter is_error tr).
Definition count_settled (tr : list Event) : nat := length (filter is_settled tr).

(* ================================================================== *)
(** * A state-and-trace monad *)
(* ================================================================== *)

(** A computation reads and writes a state [S] and appends to the trace. *)
Definition M (S A : Type) : Type := S -> A * S * list Event.

Definition ret {S A} (a : A) : M S A := fun st => (a, st, []).

Definition bind {S A B} (c : M S A) (k : A -> M S B) : M S B :=
  fun st =>
    let '(a, st1, tr1) := c st in
    let '(b, st2, tr2) := k a st1 in
    (b, st2, tr1 ++ tr2).

Declare Scope svc_scope.
Delimit Scope svc_scope with svc.
Notation "x <- c ;; k" := (bind c (fun x => k))
  (at level 61, c at next level, right associativity) : svc_scope.
Notation "c ;; k" := (bind c (fun _ => k))
  (at level 61, right associativity) : svc_scope.
Open Scope svc_scope.

Definition emit {S} (e : Event) : M S unit := fun st => (tt, st, [e]).

(** [for (const x of xs) body(x)] *)
Fixpoint for_each {S A} (xs : list A) (body : A -> M S unit) : M S unit :=
  match xs with
  | [] => ret tt
  | x :: rest => body x ;; for_each rest body
  end.

Definition result_of {S A} (c : M S A) (st : S) : A := fst (fst (c st)).
Definition state_after {S A} (c : M S A) (st : S) : S := snd (fst (c st)).
Definition trace_of {S A} (c : M S A) (st : S) : list Event := snd (c st).

(** The mutation envelope: [{ onMutate, onSuccess, onError, onSettled }]. *)
Record MutationCallbacks (S I O : Type) : Type :=
  { onMutate : I -> M S unit;
    onSuccess : O -> M S unit;
    onError : WhisperingErr -> M S unit;
    onSettled : M S unit }.
Arguments onMutate {S I O} _ _.
Arguments onSuccess {S I O} _ _.
Arguments onError {S I O} _ _.
Arguments onSettled {S I O} _.

(** The caller's callbacks are opaque to the service; they are modelled
    as callbacks that only leave their mark in the trace. *)
Definition observer {S I O} (payload : O -> Payload) : MutationCallbacks S I O :=
  {| onMutate := fun _ => emit EvOnMutate;
     onSuccess := fun data => emit (EvOnSuccess (payload data));
     onError := fun e => emit (EvOnError e);
     onSettled := emit EvOnSettled |}.

(* ================================================================== *)
(** * The platform *)
(* ================================================================== *)

(** The browser as the service uses it.  [getUserMedia], [enumerateDevices]
    and the [MediaRecorder] constructor may throw, and the service wraps
    each in [tryAsync].  [track.stop()], [recorder.start()] and
    [recorder.stop()] are called bare by the service and return
    normally here; [MayThrow] below lets [recorder.start()] throw. *)
Record Platform : Type :=
  { world : Type;
    getUserMedia : MediaStreamConstraints -> world ->
                   Result JsException MediaStream * world;
    enumerateDevices : world ->
                       Result JsException (list MediaDeviceInfo) * world;
    track_stop : MediaStreamTrack -> world -> world;
    stream_active : MediaStream -> world -> bool;
    new_MediaRecorder : MediaStream -> N -> world ->
                        Result JsException MediaRecorder * world;
    recorder_start : MediaRecorder -> N -> world -> world;
    recorder_stop : MediaRecorder -> world -> world }.

(* ================================================================== *)
(** * The service *)
(* ================================================================== *)

Section Service.
Context (P : Platform).

(** The state of one service instance: the browser's world and the
    closure variable [let currentSession: RecordingSession | null]. *)
Record St : Type :=
  { env : world P; currentSession : option RecordingSession }.

Definition get_currentSession : M St (option RecordingSession) :=
  fun st => (currentSession st, st, []).

Definition set_currentSession (s : option RecordingSession) : M St unit :=
  fun st => (tt, {| env := env st; currentSession := s |}, []).

(** A call into the browser that returns a value. *)
Definition call {A} (f : world P -> A * world P) (ev : A -> Event) : M St A :=
  fun st =>
    let '(a, w) := f (env st) in
    (a, {| env := w; currentSession := currentSession st |}, [ev a]).

(** A call into the browser made for its effect. *)
Definition command (f : world P -> world P) (ev : Event) : M St unit :=
  fun st =>
    (tt, {| env := f (env st); currentSession := currentSession st |}, [ev]).

Definition stop_track (track : MediaStreamTrack) : M St unit :=
  command (track_stop P track) (EvTrackStop track).

Definition toast (k : ToastKind) (title description : string) : M St unit :=
  emit (EvToast k title description).

(** [tryAsync({ try, catch })]: the thrown value is mapped through
    [catch] into the error of the result. *)
Definition tryAsync {T} (try : M St (Result JsException T))
    (catch : JsException -> WhisperingErr) : M St (Result WhisperingErr T) :=
  r <- try ;;
  ret (match r with Ok data => Ok data | Err error => Err (catch error) end).

(** [getStreamForDeviceId]: a mono, 16 kHz stream bound to the exact
    device id. *)
Definition getStreamForDeviceId (recordingDeviceId : string)
    : M St (Result WhisperingErr MediaStream) :=
  let constraints := AudioExact recordingDeviceId 1 16000 in
  tryAsync
    (call (getUserMedia P constraints) (EvGetUserMedia constraints))
    (fun error =>
       WhisperingError "🎤 Microphone Access Error"
         "Unable to connect to your selected microphone"
         (ActionMoreDetails (Thrown error))).

(** The [try] block of the enumeration: open the generic permission
    probe, list the devices, release the probe, keep the audio inputs.
    A throw of either call leaves the block at once. *)
Definition enumerate_try : M St (Result JsException (list MediaDeviceInfo)) :=
  probe <- call (getUserMedia P AudioAny) (EvGetUserMedia AudioAny) ;;
  match probe with
  | Err thrown => ret (Err thrown)
  | Ok allAudioDevicesStream =>
      listed <- call (enumerateDevices P) EvEnumerateDevices ;;
      match listed with
      | Err thrown => ret (Err thrown)
      | Ok devices =>
          for_each (getTracks allAudioDevicesStream) stop_track ;;
          ret (Ok (filter is_audioinput devices))
      end
  end.

Definition NoAvailableDevicesErr : WhisperingErr :=
  WhisperingError "🎤 Microphone Access Error"
    "Unable to connect to your selected microphone"
    (ActionMoreDetails (NewError "No available audio input devices")).

(** The [for (const device of recordingDevices)] loop of
    [getFirstAvailableStream] with the [return Err(...)] after it. *)
Fixpoint first_stream_of (recordingDevices : list MediaDeviceInfo)
    : M St (Result WhisperingErr MediaStream) :=
  match recordingDevices with
  | [] => ret (Err NoAvailableDevicesErr)
  | device :: rest =>
      streamResult <- getStreamForDeviceId (dev_deviceId device) ;;
      match streamResult with
      | Ok s => ret (Ok s)
      | Err _ => first_stream_of rest
      end
  end.

Definition enumerate_catch (error : JsException) : WhisperingErr :=
  WhisperingError
    "Error enumerating recording devices and acquiring first available stream"
    "Please make sure you have given permission to access your audio devices"
    (ActionMoreDetails (Thrown error)).

Definition getFirstAvailableStream : M St (Result WhisperingErr MediaStream) :=
  recordingDevicesResult <- tryAsync enumerate_try enumerate_catch ;;
  match recordingDevicesResult with
  | Err error => ret (Err error)
  | Ok recordingDevices => first_stream_of recordingDevices
  end.

(** [!settings.deviceId] *)
Definition no_device_selected (s : RecordingSessionSettings) : bool :=
  match deviceId s with EmptyString => true | String _ _ => false end.

Definition acquireStreamAndSetUpRecordingSession
    (settings : RecordingSessionSettings)
    (cb : MutationCallbacks St RecordingSessionSettings MediaStream)
    : M St unit :=
  onMutate cb settings ;;
  if no_device_selected settings then
    toast loading "No device selected"
      "Defaulting to first available audio input device..." ;;
    getFirstStreamResult <- getFirstAvailableStream ;;
    match getFirstStreamResult with
    | Err error =>
        onError cb
          (WhisperingError "Error acquiring stream"
             "No device selected and no available audio input devices found"
             (ActionMoreDetails (Wrapped error))) ;;
        onSettled cb
    | Ok firstStream =>
        toast info "Defaulted to first available audio input device"
          "You can select a specific device in the settings." ;;
        onSuccess cb firstStream ;;
        onSettled cb
    end
  else
    toast loading "Connecting to selected audio input device..."
      "Please allow access to your microphone if prompted." ;;
    getPreferredStreamResult <- getStreamForDeviceId (deviceId settings) ;;
    match getPreferredStreamResult with
    | Ok preferredStream =>
        onSuccess cb preferredStream ;;
        onSettled cb
    | Err _ =>
        toast loading "Error connecting to selected audio input device"
          "Trying to find another available audio input device..." ;;
        getFirstStreamResult <- getFirstAvailableStream ;;
        match getFirstStreamResult with
        | Err error =>
            onError cb
              (WhisperingError "Error acquiring stream"
                 "Unable to connect to your selected microphone or find any available audio input devices"
                 (ActionMoreDetails (Wrapped error))) ;;
            onSettled cb
        | Ok firstStream =>
            toast info "Defaulted to first available audio input device"
              "You can select a specific device in the settings." ;;
            onSuccess cb firstStream ;;
            onSettled cb
        end
    end.

Definition MicrophoneAccessErr (error : WhisperingErr) : WhisperingErr :=
  WhisperingError "🎤 Microphone Access Error"
    "Unable to connect to your selected microphone"
    (ActionMoreDetails (Wrapped error)).

Definition SessionAlreadyActiveErr : WhisperingErr :=
  WhisperingError "⚠️ Session Already Active"
    "A recording session is already running and ready to go" ActionNone.

Definition initRecordingSession (settings : RecordingSessionSettings)
    (cb : MutationCallbacks St RecordingSessionSettings unit) : M St unit :=
  onMutate cb settings ;;
  session <- get_currentSession ;;
  match session with
  | Some _ =>
      onError cb SessionAlreadyActiveErr ;;
      onSettled cb
  | None =>
      acquireStreamAndSetUpRecordingSession settings
        {| onMutate := fun _ => ret tt;
           onSuccess := fun stream =>
             set_currentSession
               (Some {| settings := settings; stream := stream;
                        recorder := None |}) ;;
             onSuccess cb tt;
           onError := fun error => onError cb (MicrophoneAccessErr error);
           onSettled := ret tt |} ;;
      onSettled cb
  end.

Definition NoSessionToCloseErr : WhisperingErr :=
  WhisperingError "❌ No Active Session"
    "There's no recording session to close at the moment" ActionNone.

Definition RecordingInProgressErr : WhisperingErr :=
  WhisperingError "⏺️ Recording in Progress"
    "Please stop or cancel your current recording first before closing the session"
    ActionNone.

Definition closeRecordingSession
    (cb : MutationCallbacks St unit unit) : M St unit :=
  onMutate cb tt ;;
  session <- get_currentSession ;;
  match session with
  | None =>
      onError cb NoSessionToCloseErr
      (* [return;] with no [onSettled()] before it *)
  | Some currentSession =>
      match recorder currentSession with
      | Some _ =>
          onError cb RecordingInProgressErr ;;
          onSettled cb
      | None =>
          for_each (getTracks (stream currentSession)) stop_track ;;
          set_currentSession None ;;
          onSuccess cb tt ;;
          onSettled cb
      end
  end.

Definition NoSessionToStartErr : WhisperingErr :=
  WhisperingError "❌ No Active Session"
    "There's no recording session to start recording in at the moment"
    ActionNone.

Definition RecordingSetupFailedErr (error : JsException) : WhisperingErr :=
  WhisperingError "🎙️ Recording Setup Failed"
    "Unable to initialize your microphone. Please try again"
    (ActionMoreDetails (Thrown error)).

(** [stream.active], read from the browser. *)
Definition is_active (s : MediaStream) : M St bool :=
  fun st => (stream_active P s (env st), st, []).

(** [currentSession.recorder = r].  The variable is private to the
    service and is non-null wherever the service assigns through it
    ([staleness_check_session] shows it for [startRecording]). *)
Definition set_recorder (r : option Recorder) : M St unit :=
  fun st =>
    (tt,
     {| env := env st;
        currentSession :=
          match currentSession st with
          | Some s =>
              Some {| settings := settings s; stream := stream s;
                      recorder := r |}
          | None => None
          end |},
     []).

Definition startRecording (recordingId : string)
    (cb : MutationCallbacks St string unit) : M St unit :=
  onMutate cb recordingId ;;
  session <- get_currentSession ;;
  match session with
  | None =>
      onError cb NoSessionToStartErr ;;
      onSettled cb
  | Some currentSession =>
      (* [const { stream, settings } = currentSession;] *)
      let stream := stream currentSession in
      let settings := settings currentSession in
      active <- is_active stream ;;
      (if negb active then
         toast loading "🔄 Recording Session Expired"
           "Refreshing your recording session to get you back on track..." ;;
         acquireStreamAndSetUpRecordingSession settings
           {| onMutate := fun _ => ret tt;
              (* the parameter [stream] of this arrow function shadows
                 the outer constant only inside the arrow function *)
              onSuccess := fun stream' =>
                set_currentSession
                  (Some {| settings := settings; stream := stream';
                           recorder := None |});
              onError := fun error => onError cb (MicrophoneAccessErr error);
              onSettled := ret tt |}
       else ret tt) ;;
      newRecorderResult <-
        tryAsync
          (call (new_MediaRecorder P stream (bitsPerSecond settings))
                (EvNewMediaRecorder stream (bitsPerSecond settings)))
          RecordingSetupFailedErr ;;
      match newRecorderResult with
      | Err error =>
          onError cb error ;;
          onSettled cb
      | Ok newRecorder =>
          set_recorder
            (Some {| mediaRecorder := newRecorder; recordedChunks := [];
                     recordingId := recordingId |}) ;;
          command (recorder_start P newRecorder TIMESLICE_MS)
                  (EvRecorderStart newRecorder TIMESLICE_MS) ;;
          onSuccess cb tt ;;
          onSettled cb
      end
  end.

(** The ['dataavailable'] listener that [startRecording] installs on each
    recorder.  Its body reads [currentSession] at the time of the event. *)
Definition dataavailable (data : Blob) : M St unit :=
  session <- get_currentSession ;;
  match session with
  | None => ret tt
  | Some currentSession =>
      if (blob_size data =? 0)%nat then ret tt
      else
        match recorder currentSession with
        | None => ret tt          (* [recorder?.] *)
        | Some r =>
            set_recorder
              (Some {| mediaRecorder := mediaRecorder r;
                       recordedChunks := recordedChunks r ++ [data];
                       recordingId := recordingId r |})
        end
  end.

Definition NothingToStopErr : WhisperingErr :=
  WhisperingError "⚠️ Nothing to Stop" "No active recording found to stop"
    ActionNone.

Definition RecordingStopFailedErr (error : ErrCause) : WhisperingErr :=
  WhisperingError "⏹️ Recording Stop Failed"
    "Unable to save your recording. Please try again"
    (ActionMoreDetails error).

(** [currentSession?.recorder?.mediaRecorder] *)
Definition active_recorder (session : option RecordingSession)
    : option Recorder :=
  match session with
  | Some s => recorder s
  | None => None
  end.

Inductive StopPhase : Type :=
| StopSettled       (* the call has returned *)
| AwaitingStopEvent (* the promise waits for the recorder's ['stop'] *).

(** [stopRecording] up to the [await]: the guard, then the promise
    executor, which installs the ['stop'] listener and calls
    [mediaRecorder.stop()].  The executor runs at once, so its own guard
    reads the state the first guard has just read. *)
Definition stopRecording_call (cb : MutationCallbacks St unit Blob)
    : M St StopPhase :=
  onMutate cb tt ;;
  session <- get_currentSession ;;
  match active_recorder session with
  | None =>
      onError cb NothingToStopErr ;;
      onSettled cb ;;
      ret StopSettled
  | Some r =>
      command (recorder_stop P (mediaRecorder r))
              (EvRecorderStop (mediaRecorder r)) ;;
      ret AwaitingStopEvent
  end.

(** The ['stop'] listener, and what follows the [await] once the promise
    it settles is settled. *)
Definition stopRecording_on_stop (cb : MutationCallbacks St unit Blob)
    : M St unit :=
  session <- get_currentSession ;;
  match active_recorder session with
  | None =>
      onError cb
        (RecordingStopFailedErr
           (NewError "Media recorder was nullified before stop event listener")) ;;
      onSettled cb
  | Some r =>
      let audioBlob :=
        new_Blob (recordedChunks r) (mimeType (mediaRecorder r)) in
      onSuccess cb audioBlob ;;
      onSettled cb
  end.

(** A whole [stopRecording]: the call, the chunks the recorder still
    delivers between [stop()] and its ['stop'] event, and the event. *)
Definition stopRecording (final : list Blob)
    (cb : MutationCallbacks St unit Blob) : M St unit :=
  phase <- stopRecording_call cb ;;
  match phase with
  | StopSettled => ret tt
  | AwaitingStopEvent =>
      for_each final dataavailable ;;
      stopRecording_on_stop cb
  end.

Definition NothingToCancelErr : WhisperingErr :=
  WhisperingError "⚠️ Nothing to Cancel" "No active recording found to cancel"
    ActionNone.

Definition cancelRecording (cb : MutationCallbacks St unit unit) : M St unit :=
  onMutate cb tt ;;
  session <- get_currentSession ;;
  match session with
  | None =>
      onError cb NothingToCancelErr ;;
      onSettled cb
  | Some currentSession =>
      match recorder currentSession with
      | None =>
          onError cb NothingToCancelErr ;;
          onSettled cb
      | Some r =>
          for_each (getTracks (stream currentSession)) stop_track ;;
          command (recorder_stop P (mediaRecorder r))
                  (EvRecorderStop (mediaRecorder r)) ;;
          set_recorder None ;;
          onSuccess cb tt ;;
          onSettled cb
      end
  end.

(** The caller of the service, who only watches the callbacks. *)
Definition void_observer {I} : MutationCallbacks St I unit :=
  observer (fun _ => PVoid).
Definition blob_observer : MutationCallbacks St unit Blob := observer PBlob.
Definition stream_observer
    : MutationCallbacks St RecordingSessionSettings MediaStream :=
  observer PStream.

(** Everything that can happen to a service instance. *)
Inductive Input : Type :=
| CallInit (settings : RecordingSessionSettings)
| CallClose
| CallStart (recordingId : string)
| CallStop
| CallCancel
| FireDataAvailable (data : Blob)
| FireStop.

Definition step (i : Input) : M St unit :=
  match i with
  | CallInit settings => initRecordingSession settings void_observer
  | CallClose => closeRecordingSession void_observer
  | CallStart recordingId => startRecording recordingId void_observer
  | CallStop => _ <- stopRecording_call blob_observer ;; ret tt
  | CallCancel => cancelRecording void_observer
  | FireDataAvailable data => dataavailable data
  | FireStop => stopRecording_on_stop blob_observer
  end.

Definition run (inputs : list Input) : M St unit := for_each inputs step.

Definition fresh (w : world P) : St := {| env := w; currentSession := None |}.

End Service.

Arguments env {P} _.
Arguments currentSession {P} _.
Arguments Build_St {P} _ _.
Arguments void_observer {P I}.
Arguments blob_observer {P}.
Arguments stream_observer {P}.
Arguments initRecordingSession {P} _ _ _.
Arguments closeRecordingSession {P} _ _.
Arguments startRecording {P} _ _ _.
Arguments stopRecording_call {P} _ _.
Arguments stopRecording_on_stop {P} _ _.
Arguments stopRecording {P} _ _ _.
Arguments cancelRecording {P} _ _.
Arguments dataavailable {P} _ _.
Arguments acquireStreamAndSetUpRecordingSession {P} _ _ _.
Arguments getFirstAvailableStream {P} _.
Arguments getStreamForDeviceId {P} _ _.
Arguments first_stream_of {P} _ _.
Arguments enumerate_try {P} _.
Arguments stop_track {P} _ _.
Arguments run {P} _ _.
Arguments step {P} _ _.
Arguments fresh {P} _.

(** The world after [track.stop()] on each track, in order. *)
Definition stop_all (P : Platform) (tracks : list MediaStreamTrack)
    (w : world P) : world P :=
  fold_left (fun w t => track_stop P t w) tracks w.

(** The three states of the session state machine, derived from
    [currentSession]. *)
Inductive SessionState : Type :=
| NO_SESSION
| SESSION_OPEN
| SESSION_OPEN_CAPTURING.

Definition session_state {P} (st : St P) : SessionState :=
  match currentSession st with
  | None => NO_SESSION
  | Some s =>
      match recorder s with
      | None => SESSION_OPEN
      | Some _ => SESSION_OPEN_CAPTURING
      end
  end.

(* ================================================================== *)
(** * A simulated browser *)
(* ================================================================== *)

(** A small deterministic platform for running the service on concrete
    inputs: a fixed device catalogue, a set of device ids that can be
    opened, and a world that hands out fresh ids and remembers which
    tracks were stopped. *)
Module Sim.

Record Config : Type :=
  { probe_ok : bool;                       (* does [{ audio: true }] open? *)
    catalogue : list MediaDeviceInfo;
    reachable : list string;               (* ids [getUserMedia] can open *)
    recorder_ok : bool }.                  (* does [new MediaRecorder] work? *)

Record World : Type := { next_id : nat; ended : list nat }.

Definition boot : World := {| next_id := 0; ended := [] |}.

Definition open_stream (w : World) : Result JsException MediaStream * World :=
  (Ok {| stream_id := next_id w;
         getTracks := [ {| track_id := next_id w |} ] |},
   {| next_id := S (next_id w); ended := ended w |}).

Definition sim_getUserMedia (c : Config) (k : MediaStreamConstraints)
    (w : World) : Result JsException MediaStream * World :=
  match k with
  | AudioAny =>
      if probe_ok c then open_stream w else (Err "NotAllowedError", w)
  | AudioExact exact _ _ =>
      if existsb (String.eqb exact) (reachable c) then open_stream w
      else (Err "OverconstrainedError", w)
  end.

Definition sim_track_stop (t : MediaStreamTrack) (w : World) : World :=
  {| next_id := next_id w; ended := track_id t :: ended w |}.

Definition live (w : World) (t : MediaStreamTrack) : bool :=
  negb (existsb (Nat.eqb (track_id t)) (ended w)).

Definition sim_new_MediaRecorder (c : Config) (s : MediaStream) (bps : N)
    (w : World) : Result JsException MediaRecorder * World :=
  if recorder_ok c then
    (Ok {| recorder_id := next_id w; mimeType := "audio/webm" |},
     {| next_id := S (next_id w); ended := ended w |})
  else (Err "NotSupportedError", w).

Definition platform (c : Config) : Platform :=
  {| world := World;
     getUserMedia := sim_getUserMedia c;
     enumerateDevices := fun w => (Ok (catalogue c), w);
     track_stop := sim_track_stop;
     stream_active := fun s w => existsb (live w) (getTracks s);
     new_MediaRecorder := sim_new_MediaRecorder c;
     recorder_start := fun _ _ w => w;
     recorder_stop := fun _ w => w |}.

Definition mic (id : string) : MediaDeviceInfo :=
  {| dev_deviceId := id; dev_label := id; dev_kind := audioinput |}.

Definition speaker (id : string) : MediaDeviceInfo :=
  {| dev_deviceId := id; dev_label := id; dev_kind := audiooutput |}.

(** Two microphones, the first of which cannot be opened. *)
Definition second_works : Config :=
  {| probe_ok := true;
     catalogue := [mic "D1"; speaker "S1"; mic "D2"];
     reachable := ["D2"];
     recorder_ok := true |}.

(** The microphones were unplugged: nothing can be opened any more, but a
    recorder can still be constructed. *)
Definition unplugged : Config :=
  {| probe_ok := false; catalogue := []; reachable := [];
     recorder_ok := true |}.


Definition chunk (bytes : list Byte.byte) : Blob :=
  {| blob_bytes := bytes; blob_type := "audio/webm" |}.

Definition auto (bps : N) : RecordingSessionSettings :=
  {| deviceId := EmptyString; bitsPerSecond := bps |}.

End Sim.


(** The stream-resolution policy inside
    [acquireStreamAndSetUpRecordingSession], without the callbacks: the
    toasts, the direct attempt and the fallback, ending in the stream or
    in the error that is handed to [onError].  [acquire_is_resolve_then_settle]
    shows that the source function is this policy followed by [settle]. *)
Definition resolveSessionStream {P} (settings : RecordingSessionSettings)
    : M (St P) (Result WhisperingErr MediaStream) :=
  if no_device_selected settings then
    toast P loading "No device selected"
      "Defaulting to first available audio input device..." ;;
    getFirstStreamResult <- getFirstAvailableStream ;;
    match getFirstStreamResult with
    | Err error =>
        ret (Err (WhisperingError "Error acquiring stream"
                    "No device selected and no available audio input devices found"
                    (ActionMoreDetails (Wrapped error))))
    | Ok firstStream =>
        toast P info "Defaulted to first available audio input device"
          "You can select a specific device in the settings." ;;
        ret (Ok firstStream)
    end
  else
    toast P loading "Connecting to selected audio input device..."
      "Please allow access to your microphone if prompted." ;;
    getPreferredStreamResult <- getStreamForDeviceId (deviceId settings) ;;
    match getPreferredStreamResult with
    | Ok preferredStream => ret (Ok preferredStream)
    | Err _ =>
        toast P loading "Error connecting to selected audio input device"
          "Trying to find another available audio input device..." ;;
        getFirstStreamResult <- getFirstAvailableStream ;;
        match getFirstStreamResult with
        | Err error =>
            ret (Err (WhisperingError "Error acquiring stream"
                        "Unable to connect to your selected microphone or find any available audio input devices"
                        (ActionMoreDetails (Wrapped error))))
        | Ok firstStream =>
            toast P info "Defaulted to first available audio input device"
              "You can select a specific device in the settings." ;;
            ret (Ok firstStream)
        end
    end.

(** How every branch of the acquisition ends: [onSuccess] or [onError],
    then [onSettled]. *)
Definition settle {S O} (cb : MutationCallbacks S RecordingSessionSettings O)
    (r : Result WhisperingErr O) : M S unit :=
  match r with
  | Ok data => onSuccess cb data ;; onSettled cb
  | Err error => onError cb error ;; onSettled cb
  end.

(** The attempts to open a device by its exact id, in order, each with
    the id and whether the stream was obtained. *)
Fixpoint exact_attempts (tr : list Event) : list (string * bool) :=
  match tr with
  | [] => []
  | EvGetUserMedia (AudioExact exact _ _) r :: rest =>
      (exact, is_ok r) :: exact_attempts rest
  | _ :: rest => exact_attempts rest
  end.

Definition failed (device : MediaDeviceInfo) : string * bool :=
  (dev_deviceId device, false).

Definition nonempty (b : Blob) : Prop := blob_size b <> 0.

Definition nonemptyb (b : Blob) : bool := negb (blob_size b =? 0)%nat.

(** Every chunk held by the active capture has data. *)
Definition chunks_nonempty {P} (st : St P) : Prop :=
  match active_recorder (currentSession st) with
  | Some r => Forall nonempty (recordedChunks r)
  | None => True
  end.

(** [r] with [cs] pushed onto its chunks. *)
Definition pushed (r : Recorder) (cs : list Blob) : Recorder :=
  {| mediaRecorder := mediaRecorder r;
     recordedChunks := recordedChunks r ++ cs;
     recordingId := recordingId r |}.

(** The events of a stream acquisition: toasts, [getUserMedia],
    [enumerateDevices] and the release of the permission probe. *)
Definition acquisition_event (e : Event) : bool :=
  match e with
  | EvToast _ _ _ | EvGetUserMedia _ _ | EvEnumerateDevices _
  | EvTrackStop _ => true
  | _ => false
  end.

(** A computation that talks to the browser about streams and devices
    only: it leaves [currentSession] alone and fires no callback. *)
Definition acquisition_only {P A} (c : M (St P) A) : Prop :=
  forall st,
    currentSession (state_after c st) = currentSession st /\
    forallb acquisition_event (trace_of c st) = true.

(** What the staleness check at the head of [startRecording] amounts to
    for a caller who only watches: nothing when the held stream is
    active; otherwise a toast, the resolution policy with the held
    settings, and then either a new session object around the new stream
    or the microphone-access error.  [start_run] relates it to the
    source. *)
Definition staleness_check {P} (session : RecordingSession) (st : St P)
    : St P * list Event :=
  if stream_active P (stream session) (env st) then (st, [])
  else
    let expired :=
      EvToast loading "🔄 Recording Session Expired"
        "Refreshing your recording session to get you back on track..." in
    let '(r, st1, tr1) := resolveSessionStream (settings session) st in
    match r with
    | Ok stream' =>
        ({| env := env st1;
            currentSession :=
              Some {| settings := settings session; stream := stream';
                      recorder := None |} |},
         expired :: tr1)
    | Err error =>
        (st1, expired :: tr1 ++ [EvOnError (MicrophoneAccessErr error)])
    end.

(** [s] with a fresh recorder [mr] for the recording [id]. *)
Definition capturing (s : RecordingSession) (mr : MediaRecorder)
    (id : string) : RecordingSession :=
  {| settings := settings s; stream := stream s;
     recorder := Some {| mediaRecorder := mr; recordedChunks := [];
                         recordingId := id |} |}.

(** The outcome callbacks of a trace, [onSuccess] and [onError], in the
    order in which they fired. *)
Definition is_outcome (e : Event) : bool := is_success e || is_error e.

Definition outcomes (tr : list Event) : list Event := filter is_outcome tr.


(** The mutation envelope as a caller sees it: [onMutate] first, then
    the outcome callbacks, then [onSettled], once and last. *)
Definition enveloped (tr : list Event) (reported : list Event) : Prop :=
  callbacks tr = [EvOnMutate] ++ reported ++ [EvOnSettled] /\
  forallb is_outcome reported = true.

(** Concrete states of the simulated browser used in the examples. *)
Module Scenario.

(** A session opened on the second microphone, as [init] leaves it. *)
Definition opened : St (Sim.platform Sim.second_works) :=
  state_after (run [CallInit (Sim.auto 128000)])
    (fresh (P := Sim.platform Sim.second_works) Sim.boot).

(** [init], [start], [cancel]: the session is kept, its tracks are
    stopped. *)
Definition cancelled : St (Sim.platform Sim.second_works) :=
  state_after
    (run [CallInit (Sim.auto 128000); CallStart "c1"; CallCancel])
    (fresh (P := Sim.platform Sim.second_works) Sim.boot).

(** A session whose only track has ended, in a browser where no device
    can be opened any more. *)
Definition stale : St (Sim.platform Sim.unplugged) :=
  Build_St (P := Sim.platform Sim.unplugged)
    {| Sim.next_id := 1; Sim.ended := [0] |}
    (Some {| settings := Sim.auto 128000;
             stream := {| stream_id := 0;
                          getTracks := [ {| track_id := 0 |} ] |};
             recorder := None |}).

Definition a : Blob := Sim.chunk [Byte.x01].
Definition b : Blob := Sim.chunk [Byte.x02; Byte.x03].
Definition c : Blob := Sim.chunk [Byte.x04].

End Scenario.

(* ================================================================== *)
(** * The rest of the local backend *)
(* ================================================================== *)

(** [enumerateRecordingDevices] of the local backend: the same [try]
    block as in [getFirstAvailableStream], under its own [catch]. *)
Definition enumerateRecordingDevices {P}
    : M (St P) (Result WhisperingErr (list MediaDeviceInfo)) :=
  tryAsync P enumerate_try
    (fun error =>
       WhisperingError "Error enumerating recording devices"
         "Please make sure you have given permission to access your audio devices"
         (ActionMoreDetails (Thrown error))).

(** The browser calls that give something back: [track.stop()] and
    [recorder.stop()]. *)
Definition is_release (e : Event) : bool :=
  match e with
  | EvTrackStop _ | EvRecorderStop _ => true
  | _ => false
  end.

Definition is_close (i : Input) : bool :=
  match i with CallClose => true | _ => false end.

Definition opens_or_starts (i : Input) : bool :=
  match i with CallInit _ | CallStart _ => true | _ => false end.

Definition is_init (i : Input) : bool :=
  match i with CallInit _ => true | _ => false end.

Definition is_start (i : Input) : bool :=
  match i with CallStart _ => true | _ => false end.

Definition is_cancel (i : Input) : bool :=
  match i with CallCancel => true | _ => false end.

(** The moves of the session state machine that one input may make. *)
Definition allowed (i : Input) (before after : SessionState) : Prop :=
  match before, after with
  | NO_SESSION, NO_SESSION => True
  | NO_SESSION, SESSION_OPEN => is_init i = true
  | NO_SESSION, SESSION_OPEN_CAPTURING => False
  | SESSION_OPEN, NO_SESSION => is_close i = true
  | SESSION_OPEN, SESSION_OPEN => True
  | SESSION_OPEN, SESSION_OPEN_CAPTURING => is_start i = true
  | SESSION_OPEN_CAPTURING, NO_SESSION => False
  | SESSION_OPEN_CAPTURING, SESSION_OPEN =>
      is_cancel i = true \/ is_start i = true
  | SESSION_OPEN_CAPTURING, SESSION_OPEN_CAPTURING => True
  end.

(* ================================================================== *)
(** * The bridge backend *)
(* ================================================================== *)

(** The native side, reached through [tauriInvoke<T>(command)].  The
    backend uses it at three result types: a list of device names
    ([enumerate_recording_devices]), a blob ([stop_recording]) and
    nothing the backend looks at (the other commands).  A rejected
    promise is a throw. *)
Record Bridge : Type :=
  { bridge_world : Type;
    tauri_names : string -> bridge_world ->
                  Result JsException (list string) * bridge_world;
    tauri_void : string -> bridge_world ->
                 Result JsException unit * bridge_world;
    tauri_blob : string -> bridge_world ->
                 Result JsException Blob * bridge_world }.

(** [Pick<MediaDeviceInfo, 'deviceId' | 'label'>] as the bridge backend
    builds it. *)
Record DeviceEntry : Type :=
  { entry_deviceId : string; entry_label : string }.

Module Native.

Section Backend.
Context (B : Bridge).

(** The native world, and the commands sent over the bridge so far, in
    order. *)
Record St : Type :=
  { native_world : bridge_world B; invoked : list string }.

Definition CommandExecutionFailed (command : string) (error : JsException)
    : WhisperingErr :=
  WhisperingError "Command Execution Failed"
    (String.append "Error invoking command " command)
    (ActionMoreDetails (Thrown error)).

(** [invoke<T>(command)]: [tauriInvoke] under [tryAsync]. *)
Definition invoke {T}
    (tauriInvoke : string -> bridge_world B ->
                   Result JsException T * bridge_world B)
    (command : string) : M St (Result WhisperingErr T) :=
  fun st =>
    let '(r, w) := tauriInvoke command (native_world st) in
    (match r with
     | Ok data => Ok data
     | Err error => Err (CommandExecutionFailed command error)
     end,
     {| native_world := w; invoked := invoked st ++ [command] |},
     []).

Definition EnumerateFailedErr (error : WhisperingErr) : WhisperingErr :=
  WhisperingError "Error enumerating recording devices"
    "Please make sure you have given permission to access your audio devices"
    (ActionMoreDetails (Wrapped error)).

Definition enumerateRecordingDevices
    : M St (Result WhisperingErr (list DeviceEntry)) :=
  invokeResult <- invoke (tauri_names B) "enumerate_recording_devices" ;;
  match invokeResult with
  | Err error => ret (Err (EnumerateFailedErr error))
  | Ok deviceNames =>
      ret (Ok (map (fun deviceName =>
                      {| entry_deviceId := deviceName;
                         entry_label := deviceName |})
                   deviceNames))
  end.

Definition initRecordingSession (settings : RecordingSessionSettings)
    (cb : MutationCallbacks St RecordingSessionSettings unit) : M St unit :=
  onMutate cb settings ;;
  result <- invoke (tauri_void B) "init_recording_session" ;;
  match result with
  | Ok _ => onSuccess cb tt
  | Err error => onError cb error
  end ;;
  onSettled cb.

Definition closeRecordingSession (cb : MutationCallbacks St unit unit)
    : M St unit :=
  onMutate cb tt ;;
  result <- invoke (tauri_void B) "close_recording_session" ;;
  match result with
  | Ok _ => onSuccess cb tt
  | Err error => onError cb error
  end ;;
  onSettled cb.

Definition startRecording (recordingId : string)
    (cb : MutationCallbacks St string unit) : M St unit :=
  onMutate cb recordingId ;;
  result <- invoke (tauri_void B) "start_recording" ;;
  match result with
  | Ok _ => onSuccess cb tt
  | Err error => onError cb error
  end ;;
  onSettled cb.

Definition stopRecording (cb : MutationCallbacks St unit Blob) : M St unit :=
  onMutate cb tt ;;
  result <- invoke (tauri_blob B) "stop_recording" ;;
  match result with
  | Ok data => onSuccess cb data
  | Err error => onError cb error
  end ;;
  onSettled cb.

Definition cancelRecording (cb : MutationCallbacks St unit unit)
    : M St unit :=
  onMutate cb tt ;;
  result <- invoke (tauri_void B) "cancel_recording" ;;
  match result with
  | Ok _ => onSuccess cb tt
  | Err error => onError cb error
  end ;;
  onSettled cb.

(** The five mutations a caller can make. *)
Inductive Call : Type :=
| Init (settings : RecordingSessionSettings)
| Close
| Start (recordingId : string)
| Stop
| Cancel.

Definition perform (c : Call) : M St unit :=
  match c with
  | Init settings => initRecordingSession settings (observer (fun _ => PVoid))
  | Close => closeRecordingSession (observer (fun _ => PVoid))
  | Start recordingId => startRecording recordingId (observer (fun _ => PVoid))
  | Stop => stopRecording (observer PBlob)
  | Cancel => cancelRecording (observer (fun _ => PVoid))
  end.

Definition perform_all (cs : list Call) : M St unit := for_each cs perform.

End Backend.

Arguments native_world {B} _.
Arguments invoked {B} _.
Arguments enumerateRecordingDevices {B} _.
Arguments perform {B} _ _.
Arguments perform_all {B} _ _.

(** The command each mutation sends. *)
Definition command_of (c : Call) : string :=
  match c with
  | Init _ => "init_recording_session"
  | Close => "close_recording_session"
  | Start _ => "start_recording"
  | Stop => "stop_recording"
  | Cancel => "cancel_recording"
  end.

(** What the native side answers to the command of [c] in world [w],
    with the data as [onSuccess] would be handed it. *)
Definition answer {B} (c : Call) (w : bridge_world B)
    : Result JsException Payload :=
  match c with
  | Stop =>
      match fst (tauri_blob B "stop_recording" w) with
      | Ok data => Ok (PBlob data)
      | Err thrown => Err thrown
      end
  | _ =>
      match fst (tauri_void B (command_of c) w) with
      | Ok _ => Ok PVoid
      | Err thrown => Err thrown
      end
  end.

(** A bridge for examples: it records nothing, accepts every command
    except [start_recording], and hands out a fixed blob and two device
    names. *)
Definition demo : Bridge :=
  {| bridge_world := unit;
     tauri_names := fun _ w => (Ok ["Built-in"; "USB"], w);
     tauri_void := fun command w =>
       if String.eqb command "start_recording"
       then (Err "no input device", w) else (Ok tt, w);
     tauri_blob := fun _ w =>
       (Ok {| blob_bytes := [Byte.x01]; blob_type := "audio/wav" |}, w) |}.

End Native.

(* ================================================================== *)
(** * The local backend of MediaRecorderServiceWeb.ts *)
(* ================================================================== *)

(** [createMediaRecorderServiceWeb] as MediaRecorderServiceWeb.ts has
    it: the callbacks are [{ onSuccess, onError }] only, the session is
    opened on the selected device directly, and [startRecording] has no
    staleness check.  [getStreamForDeviceId], the ['dataavailable']
    listener and the error values are those of the service above, word
    for word. *)
Module ServiceWeb.

Record Callbacks (S O : Type) : Type :=
  { onSuccess : O -> M S unit;
    onError : WhisperingErr -> M S unit }.
Arguments onSuccess {S O} _ _.
Arguments onError {S O} _ _.

(** A caller who only watches. *)
Definition watcher {S O} (payload : O -> Payload) : Callbacks S O :=
  {| onSuccess := fun data => emit (EvOnSuccess (payload data));
     onError := fun e => emit (EvOnError e) |}.

Section Ops.
Context (P : Platform).

Definition initRecordingSession (settings : RecordingSessionSettings)
    (cb : Callbacks (St P) unit) : M (St P) unit :=
  session <- get_currentSession P ;;
  match session with
  | Some _ => onError cb SessionAlreadyActiveErr
  | None =>
      getStreamForDeviceIdResult <-
        getStreamForDeviceId (deviceId settings) ;;
      match getStreamForDeviceIdResult with
      | Err error => onError cb error
      | Ok stream =>
          set_currentSession P
            (Some {| settings := settings; stream := stream;
                     recorder := None |}) ;;
          onSuccess cb tt
      end
  end.

Definition closeRecordingSession (cb : Callbacks (St P) unit)
    : M (St P) unit :=
  session <- get_currentSession P ;;
  match session with
  | None => onError cb NoSessionToCloseErr
  | Some currentSession =>
      match recorder currentSession with
      | Some _ => onError cb RecordingInProgressErr
      | None =>
          for_each (getTracks (stream currentSession)) stop_track ;;
          set_currentSession P None ;;
          onSuccess cb tt
      end
  end.

Definition startRecording (recordingId : string)
    (cb : Callbacks (St P) unit) : M (St P) unit :=
  session <- get_currentSession P ;;
  match session with
  | None => onError cb NoSessionToStartErr
  | Some currentSession =>
      let stream := stream currentSession in
      let bitsPerSecond := bitsPerSecond (settings currentSession) in
      newRecorderResult <-
        tryAsync P
          (call P (new_MediaRecorder P stream bitsPerSecond)
                (EvNewMediaRecorder stream bitsPerSecond))
          RecordingSetupFailedErr ;;
      match newRecorderResult with
      | Err error => onError cb error
      | Ok newRecorder =>
          set_recorder P
            (Some {| mediaRecorder := newRecorder; recordedChunks := [];
                     recordingId := recordingId |}) ;;
          command P (recorder_start P newRecorder TIMESLICE_MS)
                  (EvRecorderStart newRecorder TIMESLICE_MS) ;;
          onSuccess cb tt
      end
  end.

(** [stopRecording] up to the [await]. *)
Definition stopRecording_call (cb : Callbacks (St P) Blob)
    : M (St P) StopPhase :=
  session <- get_currentSession P ;;
  match active_recorder session with
  | None =>
      onError cb NothingToStopErr ;;
      ret StopSettled
  | Some r =>
      command P (recorder_stop P (mediaRecorder r))
              (EvRecorderStop (mediaRecorder r)) ;;
      ret AwaitingStopEvent
  end.

(** The ['stop'] listener and what follows the [await]. *)
Definition stopRecording_on_stop (cb : Callbacks (St P) Blob)
    : M (St P) unit :=
  session <- get_currentSession P ;;
  match active_recorder session with
  | None =>
      onError cb
        (RecordingStopFailedErr
           (NewError "Media recorder was nullified before stop event listener"))
  | Some r =>
      onSuccess cb
        (new_Blob (recordedChunks r) (mimeType (mediaRecorder r)))
  end.

Definition stopRecording (final : list Blob) (cb : Callbacks (St P) Blob)
    : M (St P) unit :=
  phase <- stopRecording_call cb ;;
  match phase with
  | StopSettled => ret tt
  | AwaitingStopEvent =>
      for_each final dataavailable ;;
      stopRecording_on_stop cb
  end.

Definition cancelRecording (cb : Callbacks (St P) unit) : M (St P) unit :=
  session <- get_currentSession P ;;
  match session with
  | None => onError cb NothingToCancelErr
  | Some currentSession =>
      match recorder currentSession with
      | None => onError cb NothingToCancelErr
      | Some r =>
          for_each (getTracks (stream currentSession)) stop_track ;;
          command P (recorder_stop P (mediaRecorder r))
                  (EvRecorderStop (mediaRecorder r)) ;;
          set_recorder P None ;;
          onSuccess cb tt
      end
  end.

Definition step (i : Input) : M (St P) unit :=
  match i with
  | CallInit settings =>
      initRecordingSession settings (watcher (fun _ => PVoid))
  | CallClose => closeRecordingSession (watcher (fun _ => PVoid))
  | CallStart recordingId =>
      startRecording recordingId (watcher (fun _ => PVoid))
  | CallStop => _ <- stopRecording_call (watcher PBlob) ;; ret tt
  | CallCancel => cancelRecording (watcher (fun _ => PVoid))
  | FireDataAvailable data => dataavailable data
  | FireStop => stopRecording_on_stop (watcher PBlob)
  end.

Definition run (inputs : list Input) : M (St P) unit := for_each inputs step.

End Ops.

Arguments initRecordingSession {P} _ _ _.
Arguments closeRecordingSession {P} _ _.
Arguments startRecording {P} _ _ _.
Arguments stopRecording_call {P} _ _.
Arguments stopRecording_on_stop {P} _ _.
Arguments stopRecording {P} _ _ _.
Arguments cancelRecording {P} _ _.
Arguments step {P} _ _.
Arguments run {P} _ _.

End ServiceWeb.


(* ================================================================== *)
(** * Late deliveries *)
(* ================================================================== *)

(** The ['dataavailable'] listener that [startRecording] installs on the
    recorder [installed_on].  The arrow function closes over
    [currentSession] and over nothing of the recorder it is installed
    on: whichever recorder fires it, it runs the one body. *)
Definition listener_of {P} (installed_on : MediaRecorder) (data : Blob)
    : M (St P) unit :=
  dataavailable data.



(* ================================================================== *)
(** * [newRecorder.start()] that may throw *)
(* ================================================================== *)

(** Both files call [newRecorder.start(TIMESLICE_MS)] outside any
    [tryAsync], after the recorder has been stored in [currentSession]
    and before [onSuccess].  The embedding above takes the call to
    return.  Here the browser may also throw from it; the [async]
    function then rejects with what was thrown and nothing after the
    call runs.  The result of the computation is [Ok] when the promise
    of the call resolves and [Err] when it rejects. *)
Module MayThrow.

Record Starter (P : Platform) : Type :=
  { try_start : MediaRecorder -> N -> world P ->
                Result JsException unit * world P }.
Arguments try_start {P} _ _ _ _.

Section Start.
Context (P : Platform) (S : Starter P).

(** [startRecording] of the service. *)
Definition startRecording (recordingId : string)
    (cb : MutationCallbacks (St P) string unit)
    : M (St P) (Result JsException unit) :=
  onMutate cb recordingId ;;
  session <- get_currentSession P ;;
  match session with
  | None =>
      onError cb NoSessionToStartErr ;;
      onSettled cb ;;
      ret (Ok tt)
  | Some currentSession =>
      let stream := stream currentSession in
      let settings := settings currentSession in
      active <- is_active P stream ;;
      (if negb active then
         toast P loading "🔄 Recording Session Expired"
           "Refreshing your recording session to get you back on track..." ;;
         acquireStreamAndSetUpRecordingSession settings
           {| onMutate := fun _ => ret tt;
              onSuccess := fun stream' =>
                set_currentSession P
                  (Some {| settings := settings; stream := stream';
                           recorder := None |});
              onError := fun error => onError cb (MicrophoneAccessErr error);
              onSettled := ret tt |}
       else ret tt) ;;
      newRecorderResult <-
        tryAsync P
          (call P (new_MediaRecorder P stream (bitsPerSecond settings))
                (EvNewMediaRecorder stream (bitsPerSecond settings)))
          RecordingSetupFailedErr ;;
      match newRecorderResult with
      | Err error =>
          onError cb error ;;
          onSettled cb ;;
          ret (Ok tt)
      | Ok newRecorder =>
          set_recorder P
            (Some {| mediaRecorder := newRecorder; recordedChunks := [];
                     recordingId := recordingId |}) ;;
          started <-
            call P (try_start S newRecorder TIMESLICE_MS)
                 (fun _ => EvRecorderStart newRecorder TIMESLICE_MS) ;;
          match started with
          | Err thrown => ret (Err thrown)
          | Ok _ =>
              onSuccess cb tt ;;
              onSettled cb ;;
              ret (Ok tt)
          end
      end
  end.

(** [startRecording] of MediaRecorderServiceWeb.ts. *)
Definition web_startRecording (recordingId : string)
    (cb : ServiceWeb.Callbacks (St P) unit)
    : M (St P) (Result JsException unit) :=
  session <- get_currentSession P ;;
  match session with
  | None =>
      ServiceWeb.onError cb NoSessionToStartErr ;;
      ret (Ok tt)
  | Some currentSession =>
      let stream := stream currentSession in
      let bitsPerSecond := bitsPerSecond (settings currentSession) in
      newRecorderResult <-
        tryAsync P
          (call P (new_MediaRecorder P stream bitsPerSecond)
                (EvNewMediaRecorder stream bitsPerSecond))
          RecordingSetupFailedErr ;;
      match newRecorderResult with
      | Err error =>
          ServiceWeb.onError cb error ;;
          ret (Ok tt)
      | Ok newRecorder =>
          set_recorder P
            (Some {| mediaRecorder := newRecorder; recordedChunks := [];
                     recordingId := recordingId |}) ;;
          started <-
            call P (try_start S newRecorder TIMESLICE_MS)
                 (fun _ => EvRecorderStart newRecorder TIMESLICE_MS) ;;
          match started with
          | Err thrown => ret (Err thrown)
          | Ok _ =>
              ServiceWeb.onSuccess cb tt ;;
              ret (Ok tt)
          end
      end
  end.

End Start.

Arguments startRecording {P} _ _ _ _.
Arguments web_startRecording {P} _ _ _ _.

(** The browser of the embedding above: [start()] always returns. *)
Definition returning (P : Platform) : Starter P :=
  {| try_start := fun mr timeslice w =>
       (Ok tt, recorder_start P mr timeslice w) |}.

(** A browser whose [start()] always throws. *)
Definition refusing (P : Platform) : Starter P :=
  {| try_start := fun _ _ w => (Err "NotSupportedError", w) |}.

End MayThrow.

(* ================================================================== *)
(** * Running the small pieces *)
(* ================================================================== *)

Section Pieces.
Context {P : Platform}.

Lemma for_each_stop_track (tracks : list MediaStreamTrack) (st : St P) :
  for_each tracks stop_track st =
  (tt,
   {| env := stop_all P tracks (env st); currentSession := currentSession st |},
   map EvTrackStop tracks).
Proof.
  revert st.
  induction tracks as [|t rest IH]; intros [w s]; [reflexivity|].
  cbn [for_each]. unfold bind at 1.
  cbn [stop_track command env currentSession].
  rewrite IH. reflexivity.
Qed.

End Pieces.

(* ================================================================== *)
(** * The session state machine: [init] and [close] *)
(* ================================================================== *)

(** C7.  [initRecordingSession] called while a session exists reports
    the session-already-active error and settles; it makes no call to the
    browser (no stream resolution is attempted: the world and the trace
    show none), and it leaves [currentSession] as it was. *)
Theorem init_twice_is_rejected (P : Platform) (w : world P)
    (session : RecordingSession) (s : RecordingSessionSettings) :
  let st := {| env := w; currentSession := Some session |} in
  initRecordingSession s void_observer st =
    (tt, st, [EvOnMutate; EvOnError SessionAlreadyActiveErr; EvOnSettled])
  /\ platform_calls (trace_of (initRecordingSession s void_observer) st) = []
  /\ err_title SessionAlreadyActiveErr = "⚠️ Session Already Active".
Proof. repeat split. Qed.

(** C8.  [closeRecordingSession] by cases on the state.  With no session
    it reports the no-active-session error.  With a recorder in the
    session it reports the recording-in-progress error and the state is
    unchanged.  With a session and no recorder it stops every track of
    the held stream, in order, and sets [currentSession] to null. *)
Theorem close_three_cases (P : Platform) (w : world P)
    (s : RecordingSessionSettings) (held : MediaStream) (r : Recorder) :
  let none := {| env := w; currentSession := None |} in
  let capturing :=
    {| env := w;
       currentSession :=
         Some {| settings := s; stream := held; recorder := Some r |} |} in
  let open :=
    {| env := w;
       currentSession :=
         Some {| settings := s; stream := held; recorder := None |} |} in
  (session_state none = NO_SESSION /\
   closeRecordingSession void_observer none =
     (tt, none, [EvOnMutate; EvOnError NoSessionToCloseErr]))
  /\
  (session_state capturing = SESSION_OPEN_CAPTURING /\
   closeRecordingSession void_observer capturing =
     (tt, capturing,
      [EvOnMutate; EvOnError RecordingInProgressErr; EvOnSettled]))
  /\
  (session_state open = SESSION_OPEN /\
   closeRecordingSession void_observer open =
     (tt,
      {| env := stop_all P (getTracks held) w; currentSession := None |},
      [EvOnMutate] ++ map EvTrackStop (getTracks held) ++
      [EvOnSuccess PVoid; EvOnSettled]) /\
   session_state (state_after (closeRecordingSession void_observer) open) =
     NO_SESSION).
Proof.
  cbv zeta. split; [repeat split|]. split; [repeat split|].
  assert (E : closeRecordingSession void_observer
                {| env := w;
                   currentSession :=
                     Some {| settings := s; stream := held;
                             recorder := None |} |} =
              (tt,
               {| env := stop_all P (getTracks held) w;
                  currentSession := None |},
               [EvOnMutate] ++ map EvTrackStop (getTracks held) ++
               [EvOnSuccess PVoid; EvOnSettled])).
  { unfold closeRecordingSession, bind. cbn.
    rewrite for_each_stop_track. reflexivity. }
  repeat split; [exact E|].
  unfold state_after. rewrite E. reflexivity.
Qed.

Ltac unfold_monad :=
  cbn [onMutate onSuccess onError onSettled observer void_observer
       blob_observer stream_observer];
  unfold tryAsync, toast, call, command, get_currentSession,
    set_currentSession, set_recorder, is_active, bind, ret, emit.

Ltac unfold_monad_in H :=
  cbn [onMutate onSuccess onError onSettled observer void_observer
       blob_observer stream_observer] in H;
  unfold tryAsync, toast, call, command, get_currentSession,
    set_currentSession, set_recorder, is_active, bind, ret, emit in H.

(** Take a membership in a trace apart, closing the cases where the
    event sought is plainly not the one found. *)
Ltac split_trace H :=
  cbn [fst snd] in H;
  repeat first
    [ apply in_app_or in H as [H|H]
    | destruct H as [H|H] ];
  try discriminate H;
  try contradiction;
  try (apply in_map_iff in H as (? & ? & _); discriminate).

Ltac same_trace :=
  repeat first [rewrite <- app_assoc | rewrite app_nil_r | progress cbn [app]];
  reflexivity.

Section Acq.
Context {P : Platform}.

Lemma acquire_is_resolve_then_settle (s : RecordingSessionSettings)
    (cb : MutationCallbacks (St P) RecordingSessionSettings MediaStream)
    (st : St P) :
  acquireStreamAndSetUpRecordingSession s cb st =
  (onMutate cb s ;; r <- resolveSessionStream s ;; settle cb r) st.
Proof.
  unfold acquireStreamAndSetUpRecordingSession, resolveSessionStream, settle.
  unfold bind, toast, emit, ret.
  destruct (onMutate cb s st) as [[u st1] tr1].
  destruct (no_device_selected s).
  - destruct (getFirstAvailableStream st1) as [[[s1|e1] st2] tr2].
    + destruct (onSuccess cb s1 st2) as [[u3 st3] tr3].
      destruct (onSettled cb st3) as [[u4 st4] tr4]. same_trace.
    + destruct (onError cb _ st2) as [[u3 st3] tr3].
      destruct (onSettled cb st3) as [[u4 st4] tr4]. same_trace.
  - destruct (getStreamForDeviceId (deviceId s) st1) as [[[s0|e0] st0] tr0].
    + destruct (onSuccess cb s0 st0) as [[u3 st3] tr3].
      destruct (onSettled cb st3) as [[u4 st4] tr4]. same_trace.
    + destruct (getFirstAvailableStream st0) as [[[s1|e1] st2] tr2].
      * destruct (onSuccess cb s1 st2) as [[u3 st3] tr3].
        destruct (onSettled cb st3) as [[u4 st4] tr4]. same_trace.
      * destruct (onError cb _ st2) as [[u3 st3] tr3].
        destruct (onSettled cb st3) as [[u4 st4] tr4]. same_trace.
Qed.

End Acq.

Section AcquisitionOnly.
Context {P : Platform}.

Lemma acquisition_only_ret {A} (a : A) : acquisition_only (P := P) (ret a).
Proof. intros st. split; reflexivity. Qed.

Lemma acquisition_only_bind {A B} (c : M (St P) A) (k : A -> M (St P) B) :
  acquisition_only c -> (forall a, acquisition_only (k a)) ->
  acquisition_only (bind c k).
Proof.
  intros Hc Hk st. specialize (Hc st).
  unfold state_after, trace_of, bind in *.
  destruct (c st) as [[a st1] tr1]. specialize (Hk a st1).
  unfold state_after, trace_of in Hk.
  destruct (k a st1) as [[b st2] tr2]. cbn [fst snd] in *.
  destruct Hc as [Hc1 Hc2], Hk as [Hk1 Hk2]. split.
  - now rewrite Hk1.
  - rewrite forallb_app, Hc2, Hk2. reflexivity.
Qed.

Lemma acquisition_only_toast k t d : acquisition_only (toast P k t d).
Proof. intros st. split; reflexivity. Qed.

Lemma acquisition_only_getUserMedia c :
  acquisition_only (call P (getUserMedia P c) (EvGetUserMedia c)).
Proof.
  intros st. unfold state_after, trace_of, call.
  destruct (getUserMedia P c (env st)). split; reflexivity.
Qed.

Lemma acquisition_only_enumerateDevices :
  acquisition_only (call P (enumerateDevices P) EvEnumerateDevices).
Proof.
  intros st. unfold state_after, trace_of, call.
  destruct (enumerateDevices P (env st)). split; reflexivity.
Qed.

Lemma acquisition_only_stop_tracks tracks :
  acquisition_only (for_each tracks (stop_track (P := P))).
Proof.
  intros st. unfold state_after, trace_of.
  rewrite for_each_stop_track. cbn [fst snd currentSession]. split; [reflexivity|].
  induction tracks; [reflexivity|assumption].
Qed.

Lemma acquisition_only_getStreamForDeviceId id :
  acquisition_only (getStreamForDeviceId (P := P) id).
Proof.
  unfold getStreamForDeviceId, tryAsync.
  apply acquisition_only_bind; [apply acquisition_only_getUserMedia|].
  intros; apply acquisition_only_ret.
Qed.

Lemma acquisition_only_enumerate_try :
  acquisition_only (enumerate_try (P := P)).
Proof.
  unfold enumerate_try.
  apply acquisition_only_bind; [apply acquisition_only_getUserMedia|].
  intros [probe|thrown]; [|apply acquisition_only_ret].
  apply acquisition_only_bind; [apply acquisition_only_enumerateDevices|].
  intros [devices|thrown]; [|apply acquisition_only_ret].
  apply acquisition_only_bind; [apply acquisition_only_stop_tracks|].
  intros; apply acquisition_only_ret.
Qed.

Lemma acquisition_only_first_stream_of devices :
  acquisition_only (first_stream_of (P := P) devices).
Proof.
  induction devices as [|d rest IH]; [apply acquisition_only_ret|].
  cbn [first_stream_of].
  apply acquisition_only_bind; [apply acquisition_only_getStreamForDeviceId|].
  intros [s|e]; [apply acquisition_only_ret|exact IH].
Qed.

Lemma acquisition_only_getFirstAvailableStream :
  acquisition_only (getFirstAvailableStream (P := P)).
Proof.
  unfold getFirstAvailableStream, tryAsync.
  apply acquisition_only_bind.
  - apply acquisition_only_bind; [apply acquisition_only_enumerate_try|].
    intros; apply acquisition_only_ret.
  - intros [devices|e];
      [apply acquisition_only_first_stream_of|apply acquisition_only_ret].
Qed.

Lemma acquisition_only_fallback_tail
    (wrap : WhisperingErr -> WhisperingErr) :
  acquisition_only
    (getFirstStreamResult <- getFirstAvailableStream (P := P) ;;
     match getFirstStreamResult with
     | Err error => ret (Err (wrap error))
     | Ok firstStream =>
         toast P info "Defaulted to first available audio input device"
           "You can select a specific device in the settings." ;;
         ret (Ok firstStream)
     end).
Proof.
  apply acquisition_only_bind; [apply acquisition_only_getFirstAvailableStream|].
  intros [s|e]; [|apply acquisition_only_ret].
  apply acquisition_only_bind; [apply acquisition_only_toast|].
  intros; apply acquisition_only_ret.
Qed.

Lemma acquisition_only_resolveSessionStream s :
  acquisition_only (resolveSessionStream (P := P) s).
Proof.
  unfold resolveSessionStream. destruct (no_device_selected s).
  - apply acquisition_only_bind; [apply acquisition_only_toast|]. intros _.
    apply (acquisition_only_fallback_tail
             (fun error => WhisperingError _ _ (ActionMoreDetails (Wrapped error)))).
  - apply acquisition_only_bind; [apply acquisition_only_toast|]. intros _.
    apply acquisition_only_bind; [apply acquisition_only_getStreamForDeviceId|].
    intros [s0|e0]; [apply acquisition_only_ret|].
    apply acquisition_only_bind; [apply acquisition_only_toast|]. intros _.
    apply (acquisition_only_fallback_tail
             (fun error => WhisperingError _ _ (ActionMoreDetails (Wrapped error)))).
Qed.

End AcquisitionOnly.

(* ================================================================== *)
(** * [startRecording] *)
(* ================================================================== *)

Section Start.
Context {P : Platform}.

(** The acquisition as [startRecording] calls it. *)
Lemma refresh_run (s : RecordingSessionSettings) (st : St P) :
  acquireStreamAndSetUpRecordingSession s
    {| onMutate := fun _ => ret tt;
       onSuccess := fun stream' =>
         set_currentSession P
           (Some {| settings := s; stream := stream'; recorder := None |});
       onError := fun error =>
         onError (void_observer (I := string)) (MicrophoneAccessErr error);
       onSettled := ret tt |} st =
  let '(r, st1, tr1) := resolveSessionStream s st in
  match r with
  | Ok stream' =>
      (tt,
       {| env := env st1;
          currentSession :=
            Some {| settings := s; stream := stream'; recorder := None |} |},
       tr1)
  | Err error => (tt, st1, tr1 ++ [EvOnError (MicrophoneAccessErr error)])
  end.
Proof.
  rewrite acquire_is_resolve_then_settle.
  unfold bind, settle. cbn [onMutate onSuccess onError onSettled].
  unfold ret at 1. cbn [app].
  destruct (resolveSessionStream s st) as [[[s'|e] st1] tr1]; cbn.
  - now rewrite app_nil_r.
  - reflexivity.
Qed.

(** [initRecordingSession] when no session exists. *)
Lemma init_run (st : St P) (s : RecordingSessionSettings) :
  currentSession st = None ->
  initRecordingSession s void_observer st =
  let '(r, st1, tr1) := resolveSessionStream s st in
  match r with
  | Ok stream' =>
      (tt,
       {| env := env st1;
          currentSession :=
            Some {| settings := s; stream := stream'; recorder := None |} |},
       [EvOnMutate] ++ tr1 ++ [EvOnSuccess PVoid; EvOnSettled])
  | Err error =>
      (tt, st1,
       [EvOnMutate] ++ tr1 ++
       [EvOnError (MicrophoneAccessErr error); EvOnSettled])
  end.
Proof.
  intros Hs. unfold initRecordingSession.
  unfold bind at 1. cbn [onMutate void_observer observer]. unfold emit at 1.
  unfold bind at 1. unfold get_currentSession at 1. rewrite Hs.
  unfold bind at 1. rewrite acquire_is_resolve_then_settle.
  unfold bind, settle. cbn [onMutate onSuccess onError onSettled observer].
  unfold_monad.
  destruct (resolveSessionStream s st) as [[[s'|e] st1] tr1]; cbn;
    f_equal; same_trace.
Qed.

Lemma start_run (st : St P) (session : RecordingSession) (id : string) :
  currentSession st = Some session ->
  startRecording id void_observer st =
  let '(st1, tr1) := staleness_check session st in
  let bps := bitsPerSecond (settings session) in
  let '(made, w2) := new_MediaRecorder P (stream session) bps (env st1) in
  match made with
  | Ok mr =>
      (tt,
       {| env := recorder_start P mr TIMESLICE_MS w2;
          currentSession :=
            option_map (fun s => capturing s mr id) (currentSession st1) |},
       [EvOnMutate] ++ tr1 ++
       [EvNewMediaRecorder (stream session) bps (Ok mr);
        EvRecorderStart mr TIMESLICE_MS; EvOnSuccess PVoid; EvOnSettled])
  | Err thrown =>
      (tt,
       {| env := w2; currentSession := currentSession st1 |},
       [EvOnMutate] ++ tr1 ++
       [EvNewMediaRecorder (stream session) bps (Err thrown);
        EvOnError (RecordingSetupFailedErr thrown); EvOnSettled])
  end.
Proof.
  intros Hs. unfold startRecording, staleness_check.
  unfold bind at 1. cbn [onMutate void_observer observer].
  unfold emit at 1. unfold bind at 1. unfold get_currentSession at 1.
  rewrite Hs. unfold bind at 1. unfold is_active at 1.
  destruct (stream_active P (stream session) (env st)); cbn [negb].
  - unfold_monad. cbn.
    destruct (new_MediaRecorder P (stream session)
                (bitsPerSecond (settings session)) (env st))
      as [[mr|thrown] w2]; reflexivity.
  - unfold bind at 1. unfold bind at 1. unfold toast at 1, emit at 1.
    rewrite refresh_run.
    destruct (resolveSessionStream (settings session) st)
      as [[[s'|e] st1] tr1].
    + unfold_monad. cbn.
      destruct (new_MediaRecorder P (stream session)
                  (bitsPerSecond (settings session)) (env st1))
        as [[mr|thrown] w2]; cbn; f_equal; same_trace.
    + unfold_monad. cbn.
      destruct (new_MediaRecorder P (stream session)
                  (bitsPerSecond (settings session)) (env st1))
        as [[mr|thrown] w2]; cbn; f_equal; same_trace.
Qed.

End Start.

Section Capture.
Context {P : Platform}.

Lemma staleness_check_session (session : RecordingSession) (st : St P) :
  currentSession st = Some session ->
  exists s1,
    currentSession (fst (staleness_check session st)) = Some s1 /\
    settings s1 = settings session /\
    (s1 = session \/ recorder s1 = None).
Proof.
  intros Hs. unfold staleness_check.
  destruct (stream_active P (stream session) (env st)).
  - exists session. cbn. auto.
  - pose proof (acquisition_only_resolveSessionStream (settings session) st)
      as [Hkeep _].
    unfold state_after in Hkeep.
    destruct (resolveSessionStream (settings session) st)
      as [[[s'|e] st1] tr1]; cbn in *.
    + eexists. split; [reflexivity|]. cbn. auto.
    + exists session. rewrite Hkeep. auto.
Qed.

Lemma staleness_check_events (session : RecordingSession) (st : St P) :
  forallb (fun e => acquisition_event e || is_error e)
    (snd (staleness_check session st)) = true.
Proof.
  unfold staleness_check.
  destruct (stream_active P (stream session) (env st)); [reflexivity|].
  pose proof (acquisition_only_resolveSessionStream (settings session) st)
    as [_ Hacq].
  unfold trace_of in Hacq.
  assert (W : forall tr, forallb acquisition_event tr = true ->
              forallb (fun e => acquisition_event e || is_error e) tr = true).
  { induction tr as [|e tr IH]; [reflexivity|]. cbn.
    intros [H1 H2]%andb_prop. now rewrite H1, IH. }
  destruct (resolveSessionStream (settings session) st)
    as [[[s'|e] st1] tr1]; cbn in *.
  - now apply W.
  - rewrite forallb_app, W by assumption. reflexivity.
Qed.

Lemma no_success_in_staleness_check (session : RecordingSession) (st : St P)
    (data : Payload) :
  ~ In (EvOnSuccess data) (snd (staleness_check session st)).
Proof.
  intros Hin.
  pose proof (staleness_check_events session st) as H.
  rewrite forallb_forall in H. apply H in Hin. discriminate.
Qed.

Lemma no_recorder_in_staleness_check (session : RecordingSession)
    (st : St P) s bps made :
  ~ In (EvNewMediaRecorder s bps made) (snd (staleness_check session st)).
Proof.
  intros Hin.
  pose proof (staleness_check_events session st) as H.
  rewrite forallb_forall in H. apply H in Hin. discriminate.
Qed.

(** A start that reports success leaves a session that holds a fresh
    recorder, with no chunk yet, under the given recording id; the
    recorder is the one the browser constructed during this call. *)
Lemma start_success (st : St P) (id : string) :
  In (EvOnSuccess PVoid) (trace_of (startRecording id void_observer) st) ->
  exists w1 s1 mr s bps,
    state_after (startRecording id void_observer) st =
      {| env := w1; currentSession := Some (capturing s1 mr id) |} /\
    In (EvNewMediaRecorder s bps (Ok mr))
       (trace_of (startRecording id void_observer) st).
Proof.
  unfold trace_of, state_after.
  destruct (currentSession st) as [session|] eqn:Hs.
  - rewrite (start_run st session id Hs).
    destruct (staleness_check_session session st Hs) as (s1 & Hs1 & _).
    pose proof (no_success_in_staleness_check session st PVoid) as Hno.
    destruct (staleness_check session st) as [st1 tr1]. cbn [fst snd] in *.
    destruct (new_MediaRecorder P (stream session)
                (bitsPerSecond (settings session)) (env st1))
      as [[mr|thrown] w2]; cbn [fst snd]; intros Hin.
    + rewrite Hs1. cbn [option_map].
      eexists _, s1, mr, _, _. split; [reflexivity|].
      apply in_or_app. right. apply in_or_app. right. left. reflexivity.
    + exfalso.
      apply in_app_or in Hin as [Hin|Hin]; [now destruct Hin|].
      apply in_app_or in Hin as [Hin|Hin]; [now apply Hno|].
      cbn in Hin. intuition discriminate.
  - unfold startRecording, bind. unfold get_currentSession at 1.
    cbn. rewrite Hs. cbn. intuition discriminate.
Qed.

(** While a recorder is held, each delivery with data is pushed onto its
    chunk list and each delivery without data is skipped. *)
Lemma deliver_run (chunks : list Blob) (w : world P)
    (s : RecordingSessionSettings) (held : MediaStream) (r : Recorder) :
  for_each chunks dataavailable
    {| env := w;
       currentSession :=
         Some {| settings := s; stream := held; recorder := Some r |} |} =
  (tt,
   {| env := w;
      currentSession :=
        Some {| settings := s; stream := held;
                recorder := Some (pushed r (filter nonemptyb chunks)) |} |},
   []).
Proof.
  revert r.
  induction chunks as [|c rest IH]; intros r.
  - destruct r. unfold pushed. cbn. now rewrite app_nil_r.
  - cbn [for_each filter]. unfold bind at 1.
    unfold dataavailable at 1, nonemptyb at 1.
    unfold_monad. cbn [currentSession env recorder settings stream].
    destruct (blob_size c =? 0)%nat; cbn [negb].
    + rewrite IH. reflexivity.
    + cbn. rewrite IH. unfold pushed.
      cbn [mediaRecorder recordedChunks recordingId].
      now rewrite <- app_assoc.
Qed.

Lemma filter_nonemptyb_all (chunks : list Blob) :
  Forall nonempty chunks -> filter nonemptyb chunks = chunks.
Proof.
  induction 1 as [|c rest Hc _ IH]; [reflexivity|].
  cbn [filter]. unfold nonemptyb at 1. unfold nonempty in Hc.
  apply Nat.eqb_neq in Hc. rewrite Hc. cbn [negb]. now rewrite IH.
Qed.


(** Deliveries during a capture followed by a whole [stopRecording]. *)
Lemma capture_then_stop (chunks final : list Blob) (w : world P)
    (s : RecordingSessionSettings) (held : MediaStream) (r : Recorder) :
  (for_each chunks dataavailable ;; stopRecording final blob_observer)
    {| env := w;
       currentSession :=
         Some {| settings := s; stream := held; recorder := Some r |} |} =
  (tt,
   {| env := recorder_stop P (mediaRecorder r) w;
      currentSession :=
        Some {| settings := s; stream := held;
                recorder :=
                  Some (pushed r (filter nonemptyb (chunks ++ final))) |} |},
   [EvOnMutate; EvRecorderStop (mediaRecorder r);
    EvOnSuccess
      (PBlob (new_Blob (recordedChunks r ++ filter nonemptyb (chunks ++ final))
                (mimeType (mediaRecorder r))));
    EvOnSettled]).
Proof.
  unfold bind at 1. rewrite deliver_run.
  unfold stopRecording, stopRecording_call. unfold_monad. cbn.
  rewrite deliver_run.
  unfold stopRecording_on_stop. unfold_monad. cbn.
  unfold new_Blob, pushed. cbn.
  rewrite filter_app, <- !app_assoc. reflexivity.
Qed.

End Capture.

(* ================================================================== *)
(** * Start, deliver, stop *)
(* ================================================================== *)

(** C1.  If [startRecording] reports success, then for every list of
    non-empty chunks delivered afterwards ([chunks] before the call of
    [stopRecording], [final] between [mediaRecorder.stop()] and the
    recorder's stop event; any number of them, none included),
    [stopRecording] reports success with the blob made of exactly those
    chunks in delivery order, whose bytes are their concatenation and
    whose type is the [mimeType] of the recorder the start constructed. *)
Theorem start_deliver_stop_artifact (P : Platform) (st : St P) (id : string)
    (chunks final : list Blob) :
  In (EvOnSuccess PVoid) (trace_of (startRecording id void_observer) st) ->
  Forall nonempty (chunks ++ final) ->
  let started := state_after (startRecording id void_observer) st in
  exists r artifact,
    active_recorder (currentSession started) = Some r /\
    recordingId r = id /\
    (exists s bps,
       In (EvNewMediaRecorder s bps (Ok (mediaRecorder r)))
          (trace_of (startRecording id void_observer) st)) /\
    trace_of
      (for_each chunks dataavailable ;; stopRecording final blob_observer)
      started =
      [EvOnMutate; EvRecorderStop (mediaRecorder r);
       EvOnSuccess (PBlob artifact); EvOnSettled] /\
    artifact = new_Blob (chunks ++ final) (mimeType (mediaRecorder r)) /\
    blob_bytes artifact = concat (map blob_bytes (chunks ++ final)) /\
    blob_type artifact = mimeType (mediaRecorder r).
Proof.
  intros Hok Hne started.
  destruct (start_success st id Hok) as (w1 & s1 & mr & s & bps & Hst & Hin).
  subst started. rewrite Hst.
  eexists _, _. split; [reflexivity|]. split; [reflexivity|].
  split; [exists s, bps; exact Hin|].
  unfold trace_of, capturing. rewrite capture_then_stop.
  rewrite (filter_nonemptyb_all _ Hne).
  cbn [snd recordedChunks mediaRecorder app]. repeat split.
Qed.

Lemma start_deliver_stop_artifact_witness :
  exists r artifact,
    active_recorder
      (currentSession
         (state_after (startRecording "c1" void_observer) Scenario.opened)) =
      Some r /\
    recordingId r = "c1" /\
    (exists s bps,
       In (EvNewMediaRecorder s bps (Ok (mediaRecorder r)))
          (trace_of (startRecording "c1" void_observer) Scenario.opened)) /\
    trace_of
      (for_each [Scenario.a; Scenario.b] dataavailable ;;
       stopRecording [Scenario.c] blob_observer)
      (state_after (startRecording "c1" void_observer) Scenario.opened) =
      [EvOnMutate; EvRecorderStop (mediaRecorder r);
       EvOnSuccess (PBlob artifact); EvOnSettled] /\
    artifact =
      new_Blob ([Scenario.a; Scenario.b] ++ [Scenario.c])
        (mimeType (mediaRecorder r)) /\
    blob_bytes artifact =
      concat (map blob_bytes ([Scenario.a; Scenario.b] ++ [Scenario.c])) /\
    blob_type artifact = mimeType (mediaRecorder r).
Proof.
  apply (start_deliver_stop_artifact (Sim.platform Sim.second_works)
           Scenario.opened "c1" [Scenario.a; Scenario.b] [Scenario.c]).
  - vm_compute. right. right. right. left. reflexivity.
  - repeat constructor; discriminate.
Defined.

Section Stop.
Context {P : Platform}.

Lemma stop_run (final : list Blob) (w : world P)
    (s : RecordingSessionSettings) (held : MediaStream) (r : Recorder) :
  stopRecording final blob_observer
    {| env := w;
       currentSession :=
         Some {| settings := s; stream := held; recorder := Some r |} |} =
  (tt,
   {| env := recorder_stop P (mediaRecorder r) w;
      currentSession :=
        Some {| settings := s; stream := held;
                recorder := Some (pushed r (filter nonemptyb final)) |} |},
   [EvOnMutate; EvRecorderStop (mediaRecorder r);
    EvOnSuccess
      (PBlob (new_Blob (recordedChunks r ++ filter nonemptyb final)
                (mimeType (mediaRecorder r))));
    EvOnSettled]).
Proof.
  pose proof (capture_then_stop [] final w s held r) as H.
  unfold bind at 1 in H. cbn [for_each ret app] in H.
  destruct (stopRecording final blob_observer _) as [[u st2] tr2].
  exact H.
Qed.

End Stop.

(** C2 fails on the code.  From [SESSION_OPEN+CAPTURING], a
    [stopRecording] that reports success leaves the recorder in
    [currentSession] (nothing in it assigns [recorder = null], unlike
    [cancelRecording]): the state is still [SESSION_OPEN+CAPTURING], and
    a [closeRecordingSession] right after it reports the
    recording-in-progress error. *)
Theorem stop_keeps_the_recorder (P : Platform) (w : world P)
    (s : RecordingSessionSettings) (held : MediaStream) (r : Recorder)
    (final : list Blob) :
  let st :=
    {| env := w;
       currentSession :=
         Some {| settings := s; stream := held; recorder := Some r |} |} in
  let stopped := state_after (stopRecording final blob_observer) st in
  count_success (trace_of (stopRecording final blob_observer) st) = 1 /\
  count_error (trace_of (stopRecording final blob_observer) st) = 0 /\
  session_state stopped = SESSION_OPEN_CAPTURING /\
  trace_of (closeRecordingSession void_observer) stopped =
    [EvOnMutate; EvOnError RecordingInProgressErr; EvOnSettled] /\
  state_after (closeRecordingSession void_observer) stopped = stopped.
Proof.
  cbv zeta. unfold state_after, trace_of. rewrite stop_run.
  repeat split.
Qed.

(** C3 fails on the code.  [closeRecordingSession] called with no session
    fires [onMutate] and [onError] and returns: [onSettled] is not
    fired. *)
Theorem close_without_session_never_settles (P : Platform) (w : world P) :
  closeRecordingSession void_observer (fresh w) =
    (tt, fresh w, [EvOnMutate; EvOnError NoSessionToCloseErr]) /\
  count_settled (trace_of (closeRecordingSession void_observer) (fresh w)) = 0.
Proof. split; reflexivity. Qed.

(* ================================================================== *)
(** * The staleness check of [startRecording] *)
(* ================================================================== *)

Lemma acquisition_has_no_outcome (tr : list Event) :
  forallb acquisition_event tr = true -> outcomes tr = [].
Proof.
  induction tr as [|e tr IH]; [reflexivity|].
  cbn [forallb]. intros [He Htr]%andb_prop.
  unfold outcomes in *. cbn [filter]. rewrite (IH Htr).
  destruct e; try discriminate He; reflexivity.
Qed.

Lemma acquisition_has_no_callbacks (tr : list Event) :
  forallb acquisition_event tr = true -> callbacks tr = [].
Proof.
  induction tr as [|e tr IH]; [reflexivity|].
  cbn [forallb]. intros [He Htr]%andb_prop.
  unfold callbacks in *. cbn [filter]. rewrite (IH Htr).
  destruct e; try discriminate He; reflexivity.
Qed.

Section Envelope.
Context {P : Platform}.

(** [initRecordingSession] keeps the envelope on each of its paths, with
    exactly one outcome. *)
Lemma init_enveloped (st : St P) (s : RecordingSessionSettings) :
  exists outcome,
    enveloped (trace_of (initRecordingSession s void_observer) st) [outcome].
Proof.
  unfold trace_of. destruct (currentSession st) as [session|] eqn:Hs.
  - unfold initRecordingSession. unfold_monad. rewrite Hs.
    exists (EvOnError SessionAlreadyActiveErr). split; reflexivity.
  - rewrite (init_run st s Hs).
    pose proof (acquisition_only_resolveSessionStream s st) as [_ Hacq].
    apply acquisition_has_no_callbacks in Hacq. unfold trace_of in Hacq.
    destruct (resolveSessionStream s st) as [[[s'|e] st1] tr1];
      cbn [fst snd] in *;
      [exists (EvOnSuccess PVoid)|exists (EvOnError (MicrophoneAccessErr e))];
      (split; [|reflexivity]);
      unfold callbacks in *; rewrite !filter_app, Hacq; reflexivity.
Qed.

End Envelope.

(** C4 fails on the code.  When [startRecording] finds the held stream
    inactive and the re-resolution fails, the [onError] handed to the
    acquisition reports the microphone-access error and, there being no
    [return] after the acquisition, the call goes on to set up the
    recorder on the held stream and reports that outcome as well: two
    outcome callbacks fire, an error followed by a success, or an error
    followed by a second error. *)
Theorem failed_refresh_reports_twice (P : Platform) (st : St P)
    (session : RecordingSession) (id : string) :
  currentSession st = Some session ->
  stream_active P (stream session) (env st) = false ->
  is_ok (result_of (resolveSessionStream (settings session)) st) = false ->
  let tr := trace_of (startRecording id void_observer) st in
  exists e,
    outcomes tr = [EvOnError (MicrophoneAccessErr e); EvOnSuccess PVoid] \/
    exists thrown,
      outcomes tr =
        [EvOnError (MicrophoneAccessErr e);
         EvOnError (RecordingSetupFailedErr thrown)].
Proof.
  intros Hs Hstale Hfail. cbv zeta. unfold trace_of.
  rewrite (start_run st session id Hs). unfold staleness_check.
  rewrite Hstale.
  pose proof (acquisition_only_resolveSessionStream (settings session) st)
    as [_ Hacq].
  unfold trace_of in Hacq. unfold result_of in Hfail.
  destruct (resolveSessionStream (settings session) st)
    as [[[s'|e] st1] tr1]; cbn [fst snd is_ok] in *; [discriminate|].
  exists e. apply acquisition_has_no_outcome in Hacq.
  destruct (new_MediaRecorder P (stream session)
              (bitsPerSecond (settings session)) (env st1))
    as [[mr|thrown] w2]; cbn [snd]; [left|right; exists thrown];
    unfold outcomes in *;
    cbn [app filter is_outcome is_success is_error orb];
    rewrite !filter_app, Hacq; reflexivity.
Qed.

Lemma failed_refresh_reports_twice_witness :
  exists e,
    outcomes (trace_of (startRecording "c1" void_observer) Scenario.stale) =
      [EvOnError (MicrophoneAccessErr e); EvOnSuccess PVoid] \/
    exists thrown,
      outcomes (trace_of (startRecording "c1" void_observer) Scenario.stale) =
        [EvOnError (MicrophoneAccessErr e);
         EvOnError (RecordingSetupFailedErr thrown)].
Proof.
  apply (failed_refresh_reports_twice (Sim.platform Sim.unplugged)
           Scenario.stale
           {| settings := Sim.auto 128000;
              stream := {| stream_id := 0;
                           getTracks := [ {| track_id := 0 |} ] |};
              recorder := None |} "c1");
    reflexivity.
Defined.

(** The same run, evaluated: the caller is told of an error and then of
    a success. *)
Example stale_start_outcomes :
  callbacks (trace_of (startRecording "c1" void_observer) Scenario.stale) =
  [EvOnMutate;
   EvOnError
     (MicrophoneAccessErr
        (WhisperingError "Error acquiring stream"
           "No device selected and no available audio input devices found"
           (ActionMoreDetails
              (Wrapped (enumerate_catch "NotAllowedError")))));
   EvOnSuccess PVoid; EvOnSettled].
Proof. reflexivity. Qed.

(** C5 fails on the code.  When [startRecording] finds the held stream
    inactive and the re-resolution (run with the settings of the session)
    yields a stream, that stream becomes the stream of [currentSession],
    but the [MediaRecorder] is constructed on the stream that was held
    when the call began, the inactive one, at the configured bitrate. *)
Theorem recorder_opens_on_the_stale_stream (P : Platform) (st : St P)
    (session : RecordingSession) (id : string) (stream' : MediaStream) :
  currentSession st = Some session ->
  stream_active P (stream session) (env st) = false ->
  result_of (resolveSessionStream (settings session)) st = Ok stream' ->
  let tr := trace_of (startRecording id void_observer) st in
  (exists now,
     currentSession (state_after (startRecording id void_observer) st) =
       Some now /\
     stream now = stream' /\ settings now = settings session) /\
  (exists made,
     In (EvNewMediaRecorder (stream session)
           (bitsPerSecond (settings session)) made) tr) /\
  (forall s bps made,
     In (EvNewMediaRecorder s bps made) tr ->
     s = stream session /\ bps = bitsPerSecond (settings session)).
Proof.
  intros Hs Hstale Hres. cbv zeta. unfold trace_of, state_after.
  rewrite (start_run st session id Hs).
  pose proof (no_recorder_in_staleness_check session st) as Hno.
  unfold staleness_check in *. rewrite Hstale in *.
  unfold result_of in Hres.
  destruct (resolveSessionStream (settings session) st)
    as [[r st1] tr1]; cbn [fst snd] in *. subst r.
  cbn [fst snd env currentSession] in *.
  destruct (new_MediaRecorder P (stream session)
              (bitsPerSecond (settings session)) (env st1))
    as [[mr|thrown] w2]; cbn [fst snd currentSession option_map].
  - split; [eexists; repeat split|]. split.
    + eexists. apply in_or_app. right. apply in_or_app. right.
      left. reflexivity.
    + intros s bps made Hin.
      apply in_app_or in Hin as [Hin|Hin]; [now destruct Hin|].
      apply in_app_or in Hin as [Hin|Hin]; [now apply Hno in Hin|].
      destruct Hin as [Hin|Hin]; [injection Hin; auto|].
      cbn in Hin. intuition discriminate.
  - split; [eexists; repeat split|]. split.
    + eexists. apply in_or_app. right. apply in_or_app. right.
      left. reflexivity.
    + intros s bps made Hin.
      apply in_app_or in Hin as [Hin|Hin]; [now destruct Hin|].
      apply in_app_or in Hin as [Hin|Hin]; [now apply Hno in Hin|].
      destruct Hin as [Hin|Hin]; [injection Hin; auto|].
      cbn in Hin. intuition discriminate.
Qed.

Lemma recorder_opens_on_the_stale_stream_witness :
  let held := {| stream_id := 1; getTracks := [ {| track_id := 1 |} ] |} in
  let stream' := {| stream_id := 4; getTracks := [ {| track_id := 4 |} ] |} in
  let tr := trace_of (startRecording "c2" void_observer) Scenario.cancelled in
  stream' <> held /\
  (exists now,
     currentSession
       (state_after (startRecording "c2" void_observer) Scenario.cancelled) =
       Some now /\
     stream now = stream' /\ settings now = Sim.auto 128000) /\
  (exists made, In (EvNewMediaRecorder held 128000 made) tr) /\
  (forall s bps made,
     In (EvNewMediaRecorder s bps made) tr -> s = held /\ bps = 128000%N).
Proof.
  cbv zeta. split; [discriminate|].
  apply (recorder_opens_on_the_stale_stream (Sim.platform Sim.second_works)
           Scenario.cancelled
           {| settings := Sim.auto 128000;
              stream := {| stream_id := 1;
                           getTracks := [ {| track_id := 1 |} ] |};
              recorder := None |}
           "c2"
           {| stream_id := 4; getTracks := [ {| track_id := 4 |} ] |});
    reflexivity.
Defined.

(* ================================================================== *)
(** * Stream resolution *)
(* ================================================================== *)

Section Fallback.
Context {P : Platform}.

Lemma exact_attempts_app (tr1 tr2 : list Event) :
  exact_attempts (tr1 ++ tr2) = exact_attempts tr1 ++ exact_attempts tr2.
Proof.
  induction tr1 as [|e tr1 IH]; [reflexivity|].
  destruct e as [| [|exact cc sr] r | | | | | | | | |]; cbn;
    rewrite ?IH; reflexivity.
Qed.

Lemma exact_attempts_track_stops (tracks : list MediaStreamTrack) :
  exact_attempts (map EvTrackStop tracks) = [].
Proof. induction tracks; [reflexivity|assumption]. Qed.

(** The enumeration opens no device by its id. *)
Lemma enumerate_try_attempts (st : St P) :
  exact_attempts (trace_of enumerate_try st) = [].
Proof.
  unfold trace_of, enumerate_try. unfold_monad.
  destruct (getUserMedia P AudioAny (env st)) as [[probe|thrown] w1];
    [|reflexivity].
  cbn [env currentSession].
  destruct (enumerateDevices P w1) as [[devices|thrown] w2]; [|reflexivity].
  rewrite for_each_stop_track. cbn [snd app].
  rewrite app_nil_r. cbn. apply exact_attempts_track_stops.
Qed.

(** What the enumeration hands over is the audio inputs of the list the
    browser returned. *)
Lemma enumerate_try_devices (st : St P) (devices : list MediaDeviceInfo) :
  result_of enumerate_try st = Ok devices ->
  exists listed,
    In (EvEnumerateDevices (Ok listed)) (trace_of enumerate_try st) /\
    devices = filter is_audioinput listed.
Proof.
  unfold result_of, trace_of, enumerate_try. unfold_monad.
  destruct (getUserMedia P AudioAny (env st)) as [[probe|thrown] w1];
    [|discriminate].
  cbn [env currentSession].
  destruct (enumerateDevices P w1) as [[listed|thrown] w2]; [|discriminate].
  rewrite for_each_stop_track. cbn [fst snd].
  intros [= <-]. exists listed. split; [|reflexivity].
  right. left. reflexivity.
Qed.

(** The loop opens the devices in listed order and returns at the first
    that opens; it fails only when each of them has failed. *)
Lemma first_stream_of_spec (devices : list MediaDeviceInfo) (st : St P) :
  (exists pre d post s,
     devices = pre ++ d :: post /\
     result_of (first_stream_of devices) st = Ok s /\
     exact_attempts (trace_of (first_stream_of devices) st) =
       map failed pre ++ [(dev_deviceId d, true)] /\
     In (EvGetUserMedia (AudioExact (dev_deviceId d) 1 16000) (Ok s))
        (trace_of (first_stream_of devices) st))
  \/
  (result_of (first_stream_of devices) st = Err NoAvailableDevicesErr /\
   exact_attempts (trace_of (first_stream_of devices) st) =
     map failed devices).
Proof.
  revert st.
  induction devices as [|d rest IH]; intros st; [right; split; reflexivity|].
  unfold result_of, trace_of in *. cbn [first_stream_of].
  unfold getStreamForDeviceId. unfold_monad.
  destruct (getUserMedia P (AudioExact (dev_deviceId d) 1 16000) (env st))
    as [[s|thrown] w1]; cbn [fst snd app].
  - left. exists [], d, rest, s. repeat split. left. reflexivity.
  - specialize (IH {| env := w1; currentSession := currentSession st |}).
    destruct (first_stream_of rest _) as [[r st2] tr2]. cbn [fst snd] in *.
    destruct IH as [(pre & d' & post & s & -> & Hr & Htr & Hin)|[Hr Htr]].
    + left. exists (d :: pre), d', post, s.
      split; [reflexivity|]. split; [exact Hr|]. split.
      * cbn. rewrite Htr. reflexivity.
      * right. exact Hin.
    + right. split; [exact Hr|]. cbn. rewrite Htr. reflexivity.
Qed.

End Fallback.



(* ================================================================== *)
(** * Cancel *)
(* ================================================================== *)

(** A run: the chunk that arrives after the cancellation and before the
    next start is in no artifact; the recording started afterwards holds
    its own chunk only. *)
Example late_chunk_is_not_recorded :
  filter is_success
    (trace_of
       (run [CallStart "c1"; FireDataAvailable Scenario.a; CallCancel;
             FireDataAvailable Scenario.b;
             CallStart "c2"; FireDataAvailable Scenario.c;
             CallStop; FireStop])
       Scenario.opened) =
  [EvOnSuccess PVoid; EvOnSuccess PVoid; EvOnSuccess PVoid;
   EvOnSuccess (PBlob (new_Blob [Scenario.c] "audio/webm"))].
Proof. reflexivity. Qed.

(* ================================================================== *)
(** * The chunk list *)
(* ================================================================== *)

Section Invariant.
Context {P : Platform}.

Lemma chunks_nonempty_same_session (st st' : St P) :
  currentSession st' = currentSession st ->
  chunks_nonempty st -> chunks_nonempty st'.
Proof. unfold chunks_nonempty. now intros ->. Qed.

Lemma chunks_nonempty_no_recorder (st : St P) :
  active_recorder (currentSession st) = None -> chunks_nonempty st.
Proof. unfold chunks_nonempty. now intros ->. Qed.

Lemma init_keeps_chunks_nonempty (s : RecordingSessionSettings) (st : St P) :
  chunks_nonempty st ->
  chunks_nonempty (state_after (initRecordingSession s void_observer) st).
Proof.
  intros Hinv. unfold state_after.
  destruct (currentSession st) as [session|] eqn:Hs.
  - unfold initRecordingSession. unfold_monad. rewrite Hs. exact Hinv.
  - rewrite (init_run st s Hs).
    pose proof (acquisition_only_resolveSessionStream s st) as [Hkeep _].
    unfold state_after in Hkeep.
    destruct (resolveSessionStream s st) as [[[s'|e] st1] tr1];
      cbn [fst snd] in *; apply chunks_nonempty_no_recorder.
    + reflexivity.
    + now rewrite Hkeep, Hs.
Qed.

Lemma start_keeps_chunks_nonempty (id : string) (st : St P) :
  chunks_nonempty st ->
  chunks_nonempty (state_after (startRecording id void_observer) st).
Proof.
  intros Hinv. unfold state_after.
  destruct (currentSession st) as [session|] eqn:Hs.
  - rewrite (start_run st session id Hs).
    destruct (staleness_check_session session st Hs)
      as (s1 & Hs1 & _ & Hcase).
    destruct (staleness_check session st) as [st1 tr1]. cbn [fst snd] in *.
    destruct (new_MediaRecorder P (stream session)
                (bitsPerSecond (settings session)) (env st1))
      as [[mr|thrown] w2]; cbn [fst snd].
    + unfold chunks_nonempty. cbn [currentSession]. rewrite Hs1.
      cbn. constructor.
    + unfold chunks_nonempty in *. cbn [currentSession].
      rewrite Hs1. rewrite Hs in Hinv.
      destruct Hcase as [->|Hnone]; [exact Hinv|].
      cbn. now rewrite Hnone.
  - unfold startRecording. unfold_monad. rewrite Hs. exact Hinv.
Qed.

Lemma dataavailable_keeps_chunks_nonempty (data : Blob) (st : St P) :
  chunks_nonempty st -> chunks_nonempty (state_after (dataavailable data) st).
Proof.
  intros Hinv. unfold state_after, dataavailable. unfold_monad.
  unfold chunks_nonempty in *.
  destruct (currentSession st) as [[s held [r|]]|] eqn:Hs;
    cbn [recorder fst snd active_recorder] in *.
  - destruct (blob_size data =? 0)%nat eqn:Hsize;
      cbn [fst snd currentSession]; rewrite Hs;
      cbn [recorder active_recorder recordedChunks]; [exact Hinv|].
    apply Forall_app. split; [exact Hinv|].
    constructor; [|constructor]. now apply Nat.eqb_neq.
  - destruct (blob_size data =? 0)%nat; cbn [fst snd]; now rewrite Hs.
  - now rewrite Hs.
Qed.

Lemma step_keeps_chunks_nonempty (i : Input) (st : St P) :
  chunks_nonempty st -> chunks_nonempty (state_after (step i) st).
Proof.
  intros Hinv. destruct i as [s| |id| | |data|]; cbn [step].
  - now apply init_keeps_chunks_nonempty.
  - unfold state_after, closeRecordingSession. unfold_monad.
    destruct (currentSession st) as [[s held [r|]]|] eqn:Hs;
      cbn [recorder stream fst snd]; try exact Hinv.
    rewrite for_each_stop_track. exact I.
  - now apply start_keeps_chunks_nonempty.
  - unfold state_after, stopRecording_call. unfold_monad.
    destruct (active_recorder (currentSession st)) as [r|] eqn:Hr;
      cbn [fst snd]; [|exact Hinv].
    now apply (chunks_nonempty_same_session st).
  - unfold state_after, cancelRecording. unfold_monad.
    destruct (currentSession st) as [[s held [r|]]|] eqn:Hs;
      cbn [recorder stream fst snd]; try exact Hinv.
    rewrite for_each_stop_track. cbn [fst snd currentSession].
    unfold chunks_nonempty. cbn. rewrite Hs. exact I.
  - now apply dataavailable_keeps_chunks_nonempty.
  - unfold state_after, stopRecording_on_stop. unfold_monad.
    destruct (active_recorder (currentSession st)); exact Hinv.
Qed.

(** A blob is handed to [onSuccess] only by the stop listener, which
    builds it from the chunk list. *)
Lemma step_artifact (i : Input) (st : St P) (artifact : Blob) :
  chunks_nonempty st ->
  In (EvOnSuccess (PBlob artifact)) (trace_of (step i) st) ->
  exists parts type, Forall nonempty parts /\ artifact = new_Blob parts type.
Proof.
  intros Hinv Hin.
  destruct i as [s| |id| | |data|]; cbn [step] in Hin; unfold trace_of in Hin.
  - exfalso. destruct (currentSession st) as [session|] eqn:Hs.
    + unfold initRecordingSession in Hin. unfold_monad_in Hin.
      rewrite Hs in Hin. split_trace Hin.
    + rewrite (init_run st s Hs) in Hin.
      pose proof (acquisition_only_resolveSessionStream s st) as [_ Hacq].
      unfold trace_of in Hacq. rewrite forallb_forall in Hacq.
      destruct (resolveSessionStream s st) as [[[s'|e] st1] tr1];
        cbn [fst snd] in *; split_trace Hin;
        apply Hacq in Hin; discriminate.
  - exfalso. unfold closeRecordingSession in Hin. unfold_monad_in Hin.
    destruct (currentSession st) as [[s held [r|]]|];
      cbn [recorder stream] in Hin; try rewrite for_each_stop_track in Hin;
      split_trace Hin.
  - exfalso. destruct (currentSession st) as [session|] eqn:Hs.
    + rewrite (start_run st session id Hs) in Hin.
      pose proof (no_success_in_staleness_check session st (PBlob artifact))
        as Hno.
      destruct (staleness_check session st) as [st1 tr1].
      cbn [fst snd] in *.
      destruct (new_MediaRecorder P (stream session)
                  (bitsPerSecond (settings session)) (env st1))
        as [[mr|thrown] w2]; cbn [snd] in Hin; split_trace Hin;
        now apply Hno.
    + unfold startRecording in Hin. unfold_monad_in Hin.
      rewrite Hs in Hin. split_trace Hin.
  - exfalso. unfold stopRecording_call in Hin. unfold_monad_in Hin.
    destruct (active_recorder (currentSession st)); split_trace Hin.
  - exfalso. unfold cancelRecording in Hin. unfold_monad_in Hin.
    destruct (currentSession st) as [[s held [r|]]|];
      cbn [recorder stream] in Hin; try rewrite for_each_stop_track in Hin;
      split_trace Hin.
  - exfalso. unfold dataavailable in Hin. unfold_monad_in Hin.
    destruct (currentSession st) as [[s held [r|]]|];
      cbn [recorder] in Hin; try destruct (blob_size data =? 0)%nat;
      split_trace Hin.
  - unfold stopRecording_on_stop in Hin. unfold_monad_in Hin.
    unfold chunks_nonempty in Hinv.
    destruct (active_recorder (currentSession st)) as [r|];
      cbn in Hin; [|intuition discriminate].
    destruct Hin as [[= <-]|Hin]; [|intuition discriminate].
    exists (recordedChunks r), (mimeType (mediaRecorder r)). auto.
Qed.

Lemma run_keeps_chunks_nonempty (inputs : list Input) (st : St P) :
  chunks_nonempty st ->
  chunks_nonempty (state_after (run inputs) st) /\
  forall artifact,
    In (EvOnSuccess (PBlob artifact)) (trace_of (run inputs) st) ->
    exists parts type, Forall nonempty parts /\ artifact = new_Blob parts type.
Proof.
  revert st.
  induction inputs as [|i rest IH]; intros st Hinv.
  - split; [exact Hinv|]. intros artifact [].
  - pose proof (step_keeps_chunks_nonempty i st Hinv) as Hstep.
    pose proof (step_artifact i st) as Hart.
    unfold run, state_after, trace_of in *. cbn [for_each]. unfold bind.
    destruct (step i st) as [[u st1] tr1]. cbn [fst snd] in *.
    specialize (IH st1 Hstep).
    destruct (for_each rest step st1) as [[u2 st2] tr2]. cbn [fst snd] in *.
    destruct IH as [IH1 IH2]. split; [exact IH1|].
    intros artifact Hin. apply in_app_or in Hin as [Hin|Hin].
    + now apply (Hart artifact).
    + now apply IH2.
Qed.

End Invariant.

(** C10.  In every state the service reaches from its creation, through
    any sequence of calls and recorder events, every chunk in the active
    capture's list has data; every blob handed to [onSuccess] is built
    from chunks that all have data; and a delivery of a zero-size chunk
    changes nothing and reports nothing. *)
Theorem stored_chunks_are_nonempty (P : Platform) (w : world P)
    (inputs : list Input) :
  chunks_nonempty (state_after (run inputs) (fresh w)) /\
  (forall artifact,
     In (EvOnSuccess (PBlob artifact)) (trace_of (run inputs) (fresh w)) ->
     exists parts type,
       Forall nonempty parts /\ artifact = new_Blob parts type) /\
  (forall (st : St P) (data : Blob),
     blob_size data = 0 -> dataavailable data st = (tt, st, [])).
Proof.
  destruct (run_keeps_chunks_nonempty inputs (fresh w) I) as [H1 H2].
  split; [exact H1|]. split; [exact H2|].
  intros st data Hz. unfold dataavailable. unfold_monad.
  destruct (currentSession st); [|reflexivity].
  rewrite Hz. reflexivity.
Qed.

(* ================================================================== *)
(** * Further properties of the local backend *)
(* ================================================================== *)

Section MoreRuns.
Context {P : Platform}.

Lemma cancel_run (w : world P) (s : RecordingSessionSettings)
    (held : MediaStream) (r : Recorder) :
  cancelRecording void_observer
    {| env := w;
       currentSession :=
         Some {| settings := s; stream := held; recorder := Some r |} |} =
  (tt,
   {| env := recorder_stop P (mediaRecorder r)
               (stop_all P (getTracks held) w);
      currentSession :=
        Some {| settings := s; stream := held; recorder := None |} |},
   [EvOnMutate] ++ map EvTrackStop (getTracks held) ++
   [EvRecorderStop (mediaRecorder r); EvOnSuccess PVoid; EvOnSettled]).
Proof.
  unfold cancelRecording. unfold_monad. cbn.
  rewrite for_each_stop_track. reflexivity.
Qed.

Lemma close_run (w : world P) (s : RecordingSessionSettings)
    (held : MediaStream) :
  closeRecordingSession void_observer
    {| env := w;
       currentSession :=
         Some {| settings := s; stream := held; recorder := None |} |} =
  (tt,
   {| env := stop_all P (getTracks held) w; currentSession := None |},
   [EvOnMutate] ++ map EvTrackStop (getTracks held) ++
   [EvOnSuccess PVoid; EvOnSettled]).
Proof.
  unfold closeRecordingSession. unfold_monad. cbn.
  rewrite for_each_stop_track. reflexivity.
Qed.

Lemma bind_run {A B} (c : M (St P) A) (k : A -> M (St P) B) (st : St P)
    a st1 tr1 b st2 tr2 :
  c st = (a, st1, tr1) -> k a st1 = (b, st2, tr2) ->
  bind c k st = (b, st2, tr1 ++ tr2).
Proof. intros Hc Hk. unfold bind. now rewrite Hc, Hk. Qed.

End MoreRuns.

(** X1.  From [NO_SESSION], [initRecordingSession] reports exactly one
    outcome between [onMutate] and [onSettled].  If the resolution policy
    yields a stream, the outcome is the success and the service holds a
    session with that stream, the given settings and no recorder; if it
    fails, the outcome is the microphone-access error around the cause
    and there is still no session.  The browser calls it makes are those
    of the resolution. *)
Theorem init_opens_a_session (P : Platform) (st : St P)
    (s : RecordingSessionSettings) :
  currentSession st = None ->
  let tr := trace_of (initRecordingSession s void_observer) st in
  let st' := state_after (initRecordingSession s void_observer) st in
  platform_calls tr = platform_calls (trace_of (resolveSessionStream s) st) /\
  match result_of (resolveSessionStream s) st with
  | Ok stream' =>
      callbacks tr = [EvOnMutate; EvOnSuccess PVoid; EvOnSettled] /\
      currentSession st' =
        Some {| settings := s; stream := stream'; recorder := None |} /\
      session_state st' = SESSION_OPEN
  | Err error =>
      callbacks tr =
        [EvOnMutate; EvOnError (MicrophoneAccessErr error); EvOnSettled] /\
      currentSession st' = None /\
      session_state st' = NO_SESSION
  end.
Proof.
  intros Hs. cbv zeta. unfold trace_of, state_after, result_of.
  rewrite (init_run st s Hs).
  pose proof (acquisition_only_resolveSessionStream s st) as [Hkeep Hacq].
  apply acquisition_has_no_callbacks in Hacq.
  unfold trace_of, state_after in *.
  destruct (resolveSessionStream s st) as [[[s'|e] st1] tr1];
    cbn [fst snd] in *.
  - split; [unfold platform_calls; rewrite !filter_app; cbn;
            now rewrite app_nil_r|].
    split; [unfold callbacks in *; rewrite !filter_app, Hacq; reflexivity|].
    split; reflexivity.
  - split; [unfold platform_calls; rewrite !filter_app; cbn;
            now rewrite app_nil_r|].
    split; [unfold callbacks in *; rewrite !filter_app, Hacq; reflexivity|].
    unfold session_state. rewrite Hkeep, Hs. split; reflexivity.
Qed.

Lemma init_opens_a_session_witness :
  let st := fresh (P := Sim.platform Sim.second_works) Sim.boot in
  let s := Sim.auto 128000 in
  let tr := trace_of (initRecordingSession s void_observer) st in
  let st' := state_after (initRecordingSession s void_observer) st in
  platform_calls tr = platform_calls (trace_of (resolveSessionStream s) st) /\
  match result_of (resolveSessionStream s) st with
  | Ok stream' =>
      callbacks tr = [EvOnMutate; EvOnSuccess PVoid; EvOnSettled] /\
      currentSession st' =
        Some {| settings := s; stream := stream'; recorder := None |} /\
      session_state st' = SESSION_OPEN
  | Err error =>
      callbacks tr =
        [EvOnMutate; EvOnError (MicrophoneAccessErr error); EvOnSettled] /\
      currentSession st' = None /\
      session_state st' = NO_SESSION
  end.
Proof.
  apply (init_opens_a_session (Sim.platform Sim.second_works)
           (fresh (P := Sim.platform Sim.second_works) Sim.boot)
           (Sim.auto 128000)).
  reflexivity.
Defined.

(** X2.  With a device selected, the acquisition first asks for exactly
    that device.  If it opens, nothing else is asked of the browser (no
    permission probe, no listing), the only toast is "Connecting...", and
    the stream is handed to [onSuccess].  If it does not, the "Error
    connecting..." toast follows, then the whole fallback, whose outcome
    is the outcome of the acquisition. *)
Theorem selected_device_is_tried_first (P : Platform) (st : St P)
    (s : RecordingSessionSettings) :
  no_device_selected s = false ->
  let c := AudioExact (deviceId s) 1 16000 in
  let direct := getUserMedia P c (env st) in
  let st1 := {| env := snd direct; currentSession := currentSession st |} in
  let connecting :=
    EvToast loading "Connecting to selected audio input device..."
      "Please allow access to your microphone if prompted." in
  acquireStreamAndSetUpRecordingSession s stream_observer st =
  match fst direct with
  | Ok preferred =>
      (tt, st1,
       [EvOnMutate; connecting; EvGetUserMedia c (Ok preferred);
        EvOnSuccess (PStream preferred); EvOnSettled])
  | Err thrown =>
      (tt, state_after getFirstAvailableStream st1,
       [EvOnMutate; connecting; EvGetUserMedia c (Err thrown);
        EvToast loading "Error connecting to selected audio input device"
          "Trying to find another available audio input device..."] ++
       trace_of getFirstAvailableStream st1 ++
       match result_of getFirstAvailableStream st1 with
       | Ok firstStream =>
           [EvToast info "Defaulted to first available audio input device"
              "You can select a specific device in the settings.";
            EvOnSuccess (PStream firstStream); EvOnSettled]
       | Err error =>
           [EvOnError
              (WhisperingError "Error acquiring stream"
                 "Unable to connect to your selected microphone or find any available audio input devices"
                 (ActionMoreDetails (Wrapped error)));
            EvOnSettled]
       end)
  end.
Proof.
  intros Hsel. cbv zeta.
  unfold acquireStreamAndSetUpRecordingSession. rewrite Hsel.
  unfold getStreamForDeviceId. unfold_monad.
  destruct (getUserMedia P (AudioExact (deviceId s) 1 16000) (env st))
    as [[preferred|thrown] w1]; cbn [fst snd]; [reflexivity|].
  unfold state_after, trace_of, result_of.
  destruct (getFirstAvailableStream _) as [[[s1|e1] st2] tr2];
    cbn [fst snd]; f_equal; same_trace.
Qed.

Lemma selected_device_is_tried_first_witness :
  acquireStreamAndSetUpRecordingSession
    {| deviceId := "D2"; bitsPerSecond := 128000 |} stream_observer
    (fresh (P := Sim.platform Sim.second_works) Sim.boot) =
  (tt,
   Build_St (P := Sim.platform Sim.second_works)
     {| Sim.next_id := 1; Sim.ended := [] |} None,
   [EvOnMutate;
    EvToast loading "Connecting to selected audio input device..."
      "Please allow access to your microphone if prompted.";
    EvGetUserMedia (AudioExact "D2" 1 16000)
      (Ok {| stream_id := 0; getTracks := [ {| track_id := 0 |} ] |});
    EvOnSuccess
      (PStream {| stream_id := 0; getTracks := [ {| track_id := 0 |} ] |});
    EvOnSettled]).
Proof.
  apply (selected_device_is_tried_first (Sim.platform Sim.second_works)
           (fresh (P := Sim.platform Sim.second_works) Sim.boot)
           {| deviceId := "D2"; bitsPerSecond := 128000 |}).
  reflexivity.
Defined.

Section FallbackMore.
Context {P : Platform}.

Lemma fallback_attempts (st : St P) :
  exact_attempts (trace_of getFirstAvailableStream st) =
  match result_of enumerate_try st with
  | Ok devices =>
      exact_attempts
        (trace_of (first_stream_of devices) (state_after enumerate_try st))
  | Err _ => []
  end.
Proof.
  pose proof (enumerate_try_attempts st) as Hnone.
  unfold result_of, trace_of, state_after, getFirstAvailableStream,
    tryAsync in *.
  unfold bind, ret.
  destruct (enumerate_try st) as [[[devices|thrown] st0] tr0];
    cbn [fst snd] in *.
  - destruct (first_stream_of devices st0) as [[r1 st1] tr1].
    cbn [fst snd]. now rewrite app_nil_r, exact_attempts_app, Hnone.
  - now rewrite !app_nil_r.
Qed.

Lemma fallback_lists (st : St P) (devices : list MediaDeviceInfo) :
  result_of enumerate_try st = Ok devices ->
  exists listed,
    In (EvEnumerateDevices (Ok listed)) (trace_of getFirstAvailableStream st)
    /\ devices = filter is_audioinput listed.
Proof.
  intros Hr. destruct (enumerate_try_devices st devices Hr)
    as (listed & Hin & Hfil).
  exists listed. split; [|exact Hfil].
  unfold result_of, trace_of, getFirstAvailableStream, tryAsync in *.
  unfold bind, ret.
  destruct (enumerate_try st) as [[[ds|thrown] st0] tr0];
    cbn [fst snd] in *; [|discriminate].
  destruct (first_stream_of ds st0) as [[r1 st1] tr1]. cbn [snd].
  rewrite app_nil_r. apply in_or_app. now left.
Qed.

End FallbackMore.

(** X3.  Whatever device the fallback tries to open by its id is an
    audio input of the list the browser returned during that same
    fallback: outputs and cameras are never tried, and nothing is tried
    when the listing did not succeed. *)
Theorem fallback_tries_only_listed_audio_inputs (P : Platform) (st : St P)
    (id : string) (opened : bool) :
  In (id, opened) (exact_attempts (trace_of getFirstAvailableStream st)) ->
  exists listed d,
    In (EvEnumerateDevices (Ok listed)) (trace_of getFirstAvailableStream st)
    /\ In d listed /\ dev_kind d = audioinput /\ dev_deviceId d = id.
Proof.
  rewrite fallback_attempts.
  pose proof (fallback_lists st) as Hlist.
  destruct (result_of enumerate_try st) as [devices|thrown];
    [|intros []].
  destruct (Hlist devices eq_refl) as (listed & Hin & Hfil).
  intros Hatt.
  assert (Hd : exists d, In d devices /\ dev_deviceId d = id).
  { destruct (first_stream_of_spec devices (state_after enumerate_try st))
      as [(pre & d & post & s & Hdev & _ & Htr & _)|[_ Htr]];
      rewrite Htr in Hatt.
    - apply in_app_or in Hatt as [Hatt|[Hatt|[]]].
      + apply in_map_iff in Hatt as (d' & [= <- _] & Hd').
        exists d'. split; [|reflexivity].
        rewrite Hdev. apply in_or_app. now left.
      + injection Hatt as <- _. exists d. split; [|reflexivity].
        rewrite Hdev. apply in_or_app. right. now left.
    - apply in_map_iff in Hatt as (d' & [= <- _] & Hd').
      exists d'. split; [assumption|reflexivity]. }
  destruct Hd as (d & Hd & Hid). subst devices.
  apply filter_In in Hd as [Hd Hk].
  exists listed, d. repeat split; try assumption.
  unfold is_audioinput in Hk. now destruct (dev_kind d).
Qed.

Lemma fallback_tries_only_listed_audio_inputs_witness :
  exists listed d,
    In (EvEnumerateDevices (Ok listed))
       (trace_of getFirstAvailableStream
          (fresh (P := Sim.platform Sim.second_works) Sim.boot))
    /\ In d listed /\ dev_kind d = audioinput /\ dev_deviceId d = "D2".
Proof.
  apply (fallback_tries_only_listed_audio_inputs
           (Sim.platform Sim.second_works)
           (fresh (P := Sim.platform Sim.second_works) Sim.boot) "D2" true).
  vm_compute. right. left. reflexivity.
Defined.

(** X4.  [enumerateRecordingDevices] of the local backend returns the
    audio inputs of the browser's list, in the browser's order, and
    nothing else; it fires no callback and leaves [currentSession] as it
    is, so it can be called in any state.  When it fails, the error
    carries what the permission probe or the listing threw. *)
Theorem enumerate_returns_the_audio_inputs (P : Platform) (st : St P) :
  currentSession (state_after enumerateRecordingDevices st) =
    currentSession st /\
  callbacks (trace_of enumerateRecordingDevices st) = [] /\
  match result_of enumerateRecordingDevices st with
  | Ok devices =>
      exists listed,
        In (EvEnumerateDevices (Ok listed))
           (trace_of enumerateRecordingDevices st) /\
        devices = filter is_audioinput listed /\
        Forall (fun d => dev_kind d = audioinput) devices
  | Err e =>
      exists thrown,
        e = WhisperingError "Error enumerating recording devices"
              "Please make sure you have given permission to access your audio devices"
              (ActionMoreDetails (Thrown thrown)) /\
        (In (EvGetUserMedia AudioAny (Err thrown))
            (trace_of enumerateRecordingDevices st) \/
         In (EvEnumerateDevices (Err thrown))
            (trace_of enumerateRecordingDevices st))
  end.
Proof.
  pose proof (acquisition_only_enumerate_try (P := P) st) as [Hkeep Hacq].
  apply acquisition_has_no_callbacks in Hacq.
  pose proof (enumerate_try_devices st) as Hdev.
  unfold enumerateRecordingDevices, tryAsync, state_after, trace_of,
    result_of, bind, ret in *.
  assert (Hthrown : forall thrown,
            fst (fst (enumerate_try st)) = Err thrown ->
            In (EvGetUserMedia AudioAny (Err thrown)) (snd (enumerate_try st))
            \/ In (EvEnumerateDevices (Err thrown)) (snd (enumerate_try st))).
  { intros thrown. unfold enumerate_try. unfold_monad.
    destruct (getUserMedia P AudioAny (env st)) as [[probe|t1] w1];
      cbn [fst snd env].
    - destruct (enumerateDevices P w1) as [[listed|t2] w2]; cbn [fst snd].
      + rewrite for_each_stop_track. discriminate.
      + intros [= ->]. right. right. now left.
    - intros [= ->]. left. now left. }
  destruct (enumerate_try st) as [[[devices|thrown] st0] tr0];
    cbn [fst snd] in *; rewrite app_nil_r.
  - split; [exact Hkeep|]. split; [exact Hacq|].
    destruct (Hdev devices eq_refl) as (listed & Hin & Hfil).
    exists listed. split; [exact Hin|]. split; [exact Hfil|].
    subst devices. apply Forall_forall. intros d [_ Hk]%filter_In.
    unfold is_audioinput in Hk. now destruct (dev_kind d).
  - split; [exact Hkeep|]. split; [exact Hacq|].
    exists thrown. split; [reflexivity|]. now apply Hthrown.
Qed.

(** X5.  The permission probe.  The enumeration (in
    [enumerateRecordingDevices] and in the fallback alike) stops every
    track of the probe stream, in order, once the listing has succeeded;
    if the listing throws after the probe has opened, no track of the
    probe is stopped. *)
Theorem probe_is_released_after_a_listing (P : Platform) (st : St P) :
  let tr := trace_of enumerate_try st in
  match fst (getUserMedia P AudioAny (env st)) with
  | Err thrown => tr = [EvGetUserMedia AudioAny (Err thrown)]
  | Ok probe =>
      match result_of enumerate_try st with
      | Ok devices =>
          exists listed,
            tr = [EvGetUserMedia AudioAny (Ok probe);
                  EvEnumerateDevices (Ok listed)] ++
                 map EvTrackStop (getTracks probe)
      | Err thrown =>
          tr = [EvGetUserMedia AudioAny (Ok probe);
                EvEnumerateDevices (Err thrown)]
      end
  end.
Proof.
  cbv zeta. unfold trace_of, result_of, enumerate_try. unfold_monad.
  destruct (getUserMedia P AudioAny (env st)) as [[probe|t1] w1];
    cbn [fst snd env]; [|reflexivity].
  destruct (enumerateDevices P w1) as [[listed|t2] w2]; cbn [fst snd].
  - rewrite for_each_stop_track. cbn [fst snd].
    exists listed. now rewrite app_nil_r.
  - reflexivity.
Qed.

Section StateMachine.
Context {P : Platform}.

Lemma step_without_session (i : Input) (st : St P) :
  currentSession st = None -> is_init i = false ->
  state_after (step i) st = st /\
  platform_calls (trace_of (step i) st) = [] /\
  count_success (trace_of (step i) st) = 0.
Proof.
  intros Hs Hi. unfold state_after, trace_of.
  destruct i as [s| |id| | |data|]; try discriminate Hi; cbn [step].
  - unfold closeRecordingSession. unfold_monad. rewrite Hs. now cbn.
  - unfold startRecording. unfold_monad. rewrite Hs. now cbn.
  - unfold stopRecording_call. unfold_monad. rewrite Hs. now cbn.
  - unfold cancelRecording. unfold_monad. rewrite Hs. now cbn.
  - unfold dataavailable. unfold_monad. rewrite Hs. now cbn.
  - unfold stopRecording_on_stop. unfold_monad. rewrite Hs. now cbn.
Qed.

Lemma step_keeps_session (i : Input) (st : St P) (s : RecordingSession) :
  currentSession st = Some s -> is_close i = false ->
  exists s',
    currentSession (state_after (step i) st) = Some s' /\
    settings s' = settings s.
Proof.
  intros Hs Hi. unfold state_after.
  destruct i as [s0| |id| | |data|]; try discriminate Hi; cbn [step].
  - unfold initRecordingSession. unfold_monad. rewrite Hs. cbn. eauto.
  - rewrite (start_run st s id Hs).
    destruct (staleness_check_session s st Hs) as (s1 & Hs1 & Hset & _).
    destruct (staleness_check s st) as [st1 tr1]. cbn [fst snd] in *.
    destruct (new_MediaRecorder P (stream s) (bitsPerSecond (settings s))
                (env st1)) as [[mr|thrown] w2]; cbn [fst snd currentSession];
      rewrite Hs1; cbn; eauto.
  - unfold stopRecording_call. unfold_monad. rewrite Hs.
    destruct (active_recorder (Some s)); cbn; eauto.
  - unfold cancelRecording. unfold_monad. rewrite Hs.
    destruct (recorder s) as [r|]; cbn; [|eauto].
    rewrite for_each_stop_track. cbn. rewrite Hs. eauto.
  - unfold dataavailable. unfold_monad. rewrite Hs.
    destruct (blob_size data =? 0)%nat; cbn; [eauto|].
    destruct (recorder s) as [r|]; cbn; [|eauto].
    rewrite Hs. eauto.
  - unfold stopRecording_on_stop. unfold_monad. rewrite Hs.
    destruct (active_recorder (Some s)); cbn; eauto.
Qed.

Lemma run_cons (i : Input) (rest : list Input) (st : St P) :
  state_after (run (i :: rest)) st =
    state_after (run rest) (state_after (step i) st) /\
  trace_of (run (i :: rest)) st =
    trace_of (step i) st ++ trace_of (run rest) (state_after (step i) st).
Proof.
  unfold run, state_after, trace_of. cbn [for_each]. unfold bind.
  destruct (step i st) as [[u st1] tr1]. cbn [fst snd].
  destruct (for_each rest step st1) as [[u2 st2] tr2]. now cbn.
Qed.

End StateMachine.

Section Cancelled.
Context {P : Platform}.



End Cancelled.



(** The same run with its artifact: chunk [b], delivered by the
    cancelled recorder after the second start, is recorded with [c]. *)
Example late_chunk_in_the_next_artifact :
  filter is_success
    (trace_of
       (run [CallStart "c1"; FireDataAvailable Scenario.a; CallCancel;
             CallStart "c2"])
       Scenario.opened ++
     trace_of
       (listener_of {| recorder_id := 2; mimeType := "audio/webm" |}
          Scenario.b ;;
        stopRecording [Scenario.c] blob_observer)
       (state_after
          (run [CallStart "c1"; FireDataAvailable Scenario.a; CallCancel;
                CallStart "c2"])
          Scenario.opened)) =
  [EvOnSuccess PVoid; EvOnSuccess PVoid; EvOnSuccess PVoid;
   EvOnSuccess (PBlob (new_Blob [Scenario.b; Scenario.c] "audio/webm"))].
Proof. reflexivity. Qed.

(** X6.  Before a session is opened nothing happens: whatever calls other
    than [initRecordingSession] are made and whatever recorder events
    arrive, the service stays without a session, asks nothing of the
    browser and never reports a success. *)
Theorem nothing_happens_before_init (P : Platform) (w : world P)
    (inputs : list Input) :
  forallb (fun i => negb (is_init i)) inputs = true ->
  state_after (run inputs) (fresh w) = fresh w /\
  platform_calls (trace_of (run inputs) (fresh w)) = [] /\
  count_success (trace_of (run inputs) (fresh w)) = 0.
Proof.
  induction inputs as [|i rest IH]; [now intros _|].
  cbn [forallb]. intros [Hi Hrest]%andb_prop.
  apply negb_true_iff in Hi.
  destruct (step_without_session i (fresh w) eq_refl Hi) as (H1 & H2 & H3).
  destruct (run_cons i rest (fresh w)) as [Hst Htr].
  rewrite Hst, Htr, H1.
  destruct (IH Hrest) as (I1 & I2 & I3).
  split; [exact I1|]. split.
  - unfold platform_calls in *. now rewrite filter_app, H2, I2.
  - unfold count_success in *. rewrite filter_app, length_app.
    now rewrite H3, I3.
Qed.

Lemma nothing_happens_before_init_witness :
  let inputs :=
    [CallStart "c1"; FireDataAvailable Scenario.a; CallStop; FireStop;
     CallCancel; CallClose] in
  let st := fresh (P := Sim.platform Sim.second_works) Sim.boot in
  state_after (run inputs) st = st /\
  platform_calls (trace_of (run inputs) st) = [] /\
  count_success (trace_of (run inputs) st) = 0.
Proof.
  apply (nothing_happens_before_init (Sim.platform Sim.second_works)
           Sim.boot).
  reflexivity.
Defined.

(** X7.  A session, once open, stays open with the settings it was
    opened with (device id and bitrate) until [closeRecordingSession] is
    called: no other call and no recorder event removes it or changes its
    settings, a refresh of a stale stream included. *)
Theorem session_is_kept_until_close (P : Platform) (inputs : list Input)
    (st : St P) (s : RecordingSession) :
  currentSession st = Some s ->
  forallb (fun i => negb (is_close i)) inputs = true ->
  exists s',
    currentSession (state_after (run inputs) st) = Some s' /\
    settings s' = settings s.
Proof.
  revert st s.
  induction inputs as [|i rest IH]; intros st s Hs Hin.
  - exists s. split; [exact Hs|reflexivity].
  - cbn [forallb] in Hin. apply andb_prop in Hin as [Hi Hrest].
    apply negb_true_iff in Hi.
    destruct (step_keeps_session i st s Hs Hi) as (s1 & Hs1 & Hset).
    destruct (run_cons i rest st) as [Hst _]. rewrite Hst.
    destruct (IH _ s1 Hs1 Hrest) as (s' & Hs' & Hset').
    exists s'. split; [exact Hs'|]. now rewrite Hset'.
Qed.

Lemma session_is_kept_until_close_witness :
  exists s',
    currentSession
      (state_after
         (run [CallStart "c1"; CallCancel; CallInit (Sim.auto 64000);
               CallStart "c2"; FireDataAvailable Scenario.a; CallStop;
               FireStop])
         Scenario.opened) = Some s' /\
    settings s' = Sim.auto 128000.
Proof.
  apply (session_is_kept_until_close (Sim.platform Sim.second_works)
           [CallStart "c1"; CallCancel; CallInit (Sim.auto 64000);
            CallStart "c2"; FireDataAvailable Scenario.a; CallStop;
            FireStop]
           Scenario.opened
           {| settings := Sim.auto 128000;
              stream := {| stream_id := 1;
                           getTracks := [ {| track_id := 1 |} ] |};
              recorder := None |});
    reflexivity.
Defined.

(** X8.  The moves of the session state machine.  No input takes the
    service from [NO_SESSION] to a capture or from a capture to
    [NO_SESSION]; a session appears only by [initRecordingSession] and
    disappears only by [closeRecordingSession]; a capture begins only by
    [startRecording]; and a capture ends only by [cancelRecording], or by
    a [startRecording] whose refresh replaced the session and whose
    recorder could not be set up.  [stopRecording] does not end it. *)
Theorem session_state_moves (P : Platform) (i : Input) (st : St P) :
  allowed i (session_state st) (session_state (state_after (step i) st)).
Proof.
  unfold session_state at 1.
  destruct (currentSession st) as [s|] eqn:Hs.
  - destruct (is_close i) eqn:Hc.
    + destruct i; try discriminate Hc. cbn [step].
      unfold state_after, closeRecordingSession. unfold_monad. rewrite Hs.
      unfold session_state.
      destruct (recorder s) as [r|] eqn:Hr; cbn; [now rewrite Hs, Hr|].
      rewrite for_each_stop_track. reflexivity.
    + destruct i as [s0| |id| | |data|]; try discriminate Hc; cbn [step];
        unfold state_after.
      * unfold initRecordingSession. unfold_monad. rewrite Hs. cbn.
        unfold session_state. rewrite Hs. now destruct (recorder s).
      * rewrite (start_run st s id Hs).
        destruct (staleness_check_session s st Hs) as (s1 & Hs1 & _ & Hcase).
        destruct (staleness_check s st) as [st1 tr1]. cbn [fst snd] in *.
        destruct (new_MediaRecorder P (stream s) (bitsPerSecond (settings s))
                    (env st1)) as [[mr|thrown] w2];
          cbn [fst snd]; unfold session_state; cbn [currentSession];
          rewrite Hs1; cbn.
        -- now destruct (recorder s).
        -- destruct Hcase as [ -> | -> ]; destruct (recorder s); cbn; auto.
      * unfold stopRecording_call. unfold_monad. rewrite Hs.
        unfold session_state. cbn [active_recorder].
        destruct (recorder s) as [r|] eqn:Hr; cbn; now rewrite Hs, Hr.
      * unfold cancelRecording. unfold_monad. rewrite Hs.
        unfold session_state.
        destruct (recorder s) as [r|] eqn:Hr; cbn.
        -- rewrite for_each_stop_track. cbn. rewrite Hs. cbn. now left.
        -- now rewrite Hs, Hr.
      * unfold dataavailable. unfold_monad. rewrite Hs.
        unfold session_state.
        destruct (blob_size data =? 0)%nat; cbn.
        -- rewrite Hs. now destruct (recorder s).
        -- destruct (recorder s) as [r|] eqn:Hr; cbn; rewrite Hs; cbn;
             [reflexivity|now rewrite Hr].
      * unfold stopRecording_on_stop. unfold_monad. rewrite Hs.
        unfold session_state. cbn [active_recorder].
        destruct (recorder s) as [r|] eqn:Hr; cbn; now rewrite Hs, Hr.
  - destruct (is_init i) eqn:Hi.
    + destruct i as [s0| | | | | |]; try discriminate Hi. cbn [step].
      unfold state_after. rewrite (init_run st s0 Hs).
      pose proof (acquisition_only_resolveSessionStream s0 st) as [Hkeep _].
      unfold state_after in Hkeep.
      destruct (resolveSessionStream s0 st) as [[[s'|e] st1] tr1];
        cbn [fst snd] in *; unfold session_state; cbn [currentSession];
        [reflexivity|now rewrite Hkeep, Hs].
    + destruct (step_without_session i st Hs Hi) as (-> & _).
      unfold session_state. now rewrite Hs.
Qed.

(** X9.  [startRecording] does not look for a capture in progress.
    Called during one, if it reports success the session holds a new
    recorder with an empty chunk list under the new id, the chunks
    gathered so far are no longer held anywhere, and the previous media
    recorder has not been stopped. *)
Theorem start_during_a_capture_replaces_it (P : Platform) (w : world P)
    (s : RecordingSessionSettings) (held : MediaStream) (r : Recorder)
    (id : string) :
  let st :=
    {| env := w;
       currentSession :=
         Some {| settings := s; stream := held; recorder := Some r |} |} in
  In (EvOnSuccess PVoid) (trace_of (startRecording id void_observer) st) ->
  (exists r',
     active_recorder
       (currentSession (state_after (startRecording id void_observer) st)) =
       Some r' /\
     recordedChunks r' = [] /\ recordingId r' = id) /\
  (forall mr,
     ~ In (EvRecorderStop mr) (trace_of (startRecording id void_observer) st)).
Proof.
  cbv zeta. intros Hok. split.
  - destruct (start_success _ id Hok) as (w1 & s1 & mr & s2 & bps & Hst & _).
    rewrite Hst. eexists. repeat split.
  - intros mr0 Hin. unfold trace_of in Hin.
    set (session := {| settings := s; stream := held;
                       recorder := Some r |}) in *.
    set (st := {| env := w; currentSession := Some session |}) in *.
    rewrite (start_run st session id eq_refl) in Hin.
    pose proof (staleness_check_events session st) as Hev.
    rewrite forallb_forall in Hev.
    destruct (staleness_check session st) as [st1 tr1]. cbn [fst snd] in *.
    destruct (new_MediaRecorder P (stream session)
                (bitsPerSecond (settings session)) (env st1))
      as [[mr|thrown] w2];
      cbn [snd] in Hin; split_trace Hin; apply Hev in Hin; discriminate.
Qed.

Lemma start_during_a_capture_replaces_it_witness :
  let st :=
    Build_St (P := Sim.platform Sim.second_works)
      {| Sim.next_id := 3; Sim.ended := [] |}
      (Some {| settings := Sim.auto 128000;
               stream := {| stream_id := 1;
                            getTracks := [ {| track_id := 1 |} ] |};
               recorder :=
                 Some {| mediaRecorder :=
                           {| recorder_id := 2; mimeType := "audio/webm" |};
                         recordedChunks := [Scenario.a; Scenario.b];
                         recordingId := "c1" |} |}) in
  (exists r',
     active_recorder
       (currentSession (state_after (startRecording "c2" void_observer) st)) =
       Some r' /\
     recordedChunks r' = [] /\ recordingId r' = "c2") /\
  (forall mr,
     ~ In (EvRecorderStop mr)
          (trace_of (startRecording "c2" void_observer) st)).
Proof.
  apply (start_during_a_capture_replaces_it (Sim.platform Sim.second_works)
           {| Sim.next_id := 3; Sim.ended := [] |}
           (Sim.auto 128000)
           {| stream_id := 1; getTracks := [ {| track_id := 1 |} ] |}
           {| mediaRecorder :=
                {| recorder_id := 2; mimeType := "audio/webm" |};
              recordedChunks := [Scenario.a; Scenario.b];
              recordingId := "c1" |}
           "c2").
  vm_compute. right. right. right. left. reflexivity.
Defined.

(** X10.  From a capture, [cancelRecording] followed by
    [closeRecordingSession] succeeds twice and ends in [NO_SESSION]; the
    tracks of the session's stream are stopped by the one and again by
    the other.  A [stopRecording] after that reports the nothing-to-stop
    error and changes nothing. *)
Theorem cancel_then_close_ends_the_session (P : Platform) (w : world P)
    (s : RecordingSessionSettings) (held : MediaStream) (r : Recorder)
    (final : list Blob) :
  let st :=
    {| env := w;
       currentSession :=
         Some {| settings := s; stream := held; recorder := Some r |} |} in
  let closed :=
    {| env := stop_all P (getTracks held)
                (recorder_stop P (mediaRecorder r)
                   (stop_all P (getTracks held) w));
       currentSession := None |} in
  (cancelRecording void_observer ;; closeRecordingSession void_observer) st =
    (tt, closed,
     ([EvOnMutate] ++ map EvTrackStop (getTracks held) ++
      [EvRecorderStop (mediaRecorder r); EvOnSuccess PVoid; EvOnSettled]) ++
     ([EvOnMutate] ++ map EvTrackStop (getTracks held) ++
      [EvOnSuccess PVoid; EvOnSettled]))
  /\ session_state closed = NO_SESSION
  /\ stopRecording final blob_observer closed =
       (tt, closed, [EvOnMutate; EvOnError NothingToStopErr; EvOnSettled]).
Proof.
  cbv zeta. split; [|split; reflexivity].
  eapply bind_run; [apply cancel_run|apply close_run].
Qed.

(** X11.  After a [stopRecording] that has handed out its blob, the
    recorder is still held, so [cancelRecording] reports success rather
    than nothing-to-cancel, and only then does [closeRecordingSession]
    succeed: stop, cancel, close in this order end in [NO_SESSION], the
    media recorder having been stopped twice. *)
Theorem stop_then_cancel_then_close (P : Platform) (w : world P)
    (s : RecordingSessionSettings) (held : MediaStream) (r : Recorder)
    (final : list Blob) :
  let st :=
    {| env := w;
       currentSession :=
         Some {| settings := s; stream := held; recorder := Some r |} |} in
  let mr := mediaRecorder r in
  let tracks := getTracks held in
  (stopRecording final blob_observer ;;
   cancelRecording void_observer ;;
   closeRecordingSession void_observer) st =
    (tt,
     {| env := stop_all P tracks
                 (recorder_stop P mr
                    (stop_all P tracks (recorder_stop P mr w)));
        currentSession := None |},
     [EvOnMutate; EvRecorderStop mr;
      EvOnSuccess
        (PBlob (new_Blob (recordedChunks r ++ filter nonemptyb final)
                  (mimeType mr)));
      EvOnSettled] ++
     (([EvOnMutate] ++ map EvTrackStop tracks ++
       [EvRecorderStop mr; EvOnSuccess PVoid; EvOnSettled]) ++
      ([EvOnMutate] ++ map EvTrackStop tracks ++
       [EvOnSuccess PVoid; EvOnSettled]))).
Proof.
  cbv zeta.
  eapply bind_run; [apply stop_run|].
  eapply bind_run;
    [apply (cancel_run _ s held (pushed r (filter nonemptyb final)))
    |apply close_run].
Qed.

(** X12.  Only [initRecordingSession] and [startRecording] ask the
    browser for anything: every browser call made by the other calls and
    by the recorder's events is a [track.stop()] or a
    [mediaRecorder.stop()]. *)
Theorem other_calls_only_release (P : Platform) (i : Input) (st : St P)
    (e : Event) :
  opens_or_starts i = false ->
  In e (platform_calls (trace_of (step i) st)) ->
  is_release e = true.
Proof.
  intros Hi Hin. unfold platform_calls in Hin.
  apply filter_In in Hin as [Hin Hf]. unfold trace_of in Hin.
  destruct i as [s0| |id| | |data|]; try discriminate Hi; cbn [step] in Hin.
  - unfold closeRecordingSession in Hin. unfold_monad_in Hin.
    destruct (currentSession st) as [[s held [r|]]|];
      cbn [recorder stream] in Hin; try rewrite for_each_stop_track in Hin;
      cbn [fst snd] in Hin;
      repeat first [ apply in_app_or in Hin as [Hin|Hin]
                   | destruct Hin as [Hin|Hin] ];
      try contradiction; try (subst e; discriminate Hf).
    apply in_map_iff in Hin as (t & <- & _). reflexivity.
  - unfold stopRecording_call in Hin. unfold_monad_in Hin.
    destruct (active_recorder (currentSession st));
      cbn [fst snd] in Hin;
      repeat first [ apply in_app_or in Hin as [Hin|Hin]
                   | destruct Hin as [Hin|Hin] ];
      try contradiction; try (subst e; discriminate Hf).
    subst e. reflexivity.
  - unfold cancelRecording in Hin. unfold_monad_in Hin.
    destruct (currentSession st) as [[s held [r|]]|];
      cbn [recorder stream] in Hin; try rewrite for_each_stop_track in Hin;
      cbn [fst snd] in Hin;
      repeat first [ apply in_app_or in Hin as [Hin|Hin]
                   | destruct Hin as [Hin|Hin] ];
      try contradiction; try (subst e; discriminate Hf);
      try (subst e; reflexivity).
    apply in_map_iff in Hin as (t & <- & _). reflexivity.
  - unfold dataavailable in Hin. unfold_monad_in Hin.
    destruct (currentSession st) as [[s held [r|]]|];
      cbn [recorder] in Hin; try destruct (blob_size data =? 0)%nat;
      cbn in Hin; contradiction.
  - unfold stopRecording_on_stop in Hin. unfold_monad_in Hin.
    destruct (active_recorder (currentSession st));
      cbn [fst snd] in Hin;
      repeat first [ apply in_app_or in Hin as [Hin|Hin]
                   | destruct Hin as [Hin|Hin] ];
      try contradiction; subst e; discriminate Hf.
Qed.

Lemma other_calls_only_release_witness :
  is_release (EvTrackStop {| track_id := 1 |}) = true.
Proof.
  apply (other_calls_only_release (Sim.platform Sim.second_works)
           CallClose Scenario.opened (EvTrackStop {| track_id := 1 |})).
  - reflexivity.
  - vm_compute. left. reflexivity.
Defined.

(* ================================================================== *)
(** * The bridge backend: properties *)
(* ================================================================== *)

(** X13.  Every mutation of the bridge backend sends exactly one command
    over the bridge, the one named after it, without the settings or the
    recording id, and keeps the envelope: [onMutate], then one outcome,
    then [onSettled].  The outcome is the success (with the blob the
    native side answered, for [stopRecording]) when the command went
    through, and otherwise the command-execution error naming the
    command and carrying what was thrown. *)
Theorem bridge_call_envelope (B : Bridge) (c : Native.Call)
    (st : Native.St B) :
  Native.invoked (state_after (Native.perform c) st) =
    Native.invoked st ++ [Native.command_of c] /\
  trace_of (Native.perform c) st =
    match Native.answer c (Native.native_world st) with
    | Ok data => [EvOnMutate; EvOnSuccess data; EvOnSettled]
    | Err thrown =>
        [EvOnMutate;
         EvOnError
           (Native.CommandExecutionFailed (Native.command_of c) thrown);
         EvOnSettled]
    end.
Proof.
  unfold state_after, trace_of, Native.answer.
  destruct c as [s| |id| |]; cbn [Native.perform Native.command_of];
    unfold Native.initRecordingSession, Native.closeRecordingSession,
      Native.startRecording, Native.stopRecording, Native.cancelRecording,
      Native.invoke;
    unfold_monad;
    match goal with
    | |- context [tauri_void B ?c ?w] =>
        destruct (tauri_void B c w) as [[[]|thrown] w1]
    | |- context [tauri_blob B ?c ?w] =>
        destruct (tauri_blob B c w) as [[data|thrown] w1]
    end; split; reflexivity.
Qed.

Section BridgeRuns.
Context {B : Bridge}.

Lemma perform_all_cons (c : Native.Call) (rest : list Native.Call)
    (st : Native.St B) :
  state_after (Native.perform_all (c :: rest)) st =
    state_after (Native.perform_all rest)
      (state_after (Native.perform c) st) /\
  trace_of (Native.perform_all (c :: rest)) st =
    trace_of (Native.perform c) st ++
    trace_of (Native.perform_all rest) (state_after (Native.perform c) st).
Proof.
  unfold Native.perform_all, state_after, trace_of. cbn [for_each].
  unfold bind.
  destruct (Native.perform c st) as [[u st1] tr1]. cbn [fst snd].
  destruct (for_each rest Native.perform st1) as [[u2 st2] tr2]. now cbn.
Qed.

Lemma bridge_call_shape (c : Native.Call) (st : Native.St B) :
  Native.invoked (state_after (Native.perform c) st) =
    Native.invoked st ++ [Native.command_of c] /\
  count_settled (trace_of (Native.perform c) st) = 1 /\
  length (outcomes (trace_of (Native.perform c) st)) = 1.
Proof.
  unfold state_after, trace_of.
  destruct c as [s| |id| |]; cbn [Native.perform Native.command_of];
    unfold Native.initRecordingSession, Native.closeRecordingSession,
      Native.startRecording, Native.stopRecording, Native.cancelRecording,
      Native.invoke;
    unfold_monad;
    match goal with
    | |- context [tauri_void B ?c ?w] =>
        destruct (tauri_void B c w) as [[[]|thrown] w1]
    | |- context [tauri_blob B ?c ?w] =>
        destruct (tauri_blob B c w) as [[data|thrown] w1]
    end; repeat split.
Qed.

End BridgeRuns.

(** X14.  A sequence of mutations of the bridge backend sends their
    commands over the bridge one for one and in call order, whatever the
    native side answers; each call settles exactly once and reports
    exactly one outcome. *)
Theorem bridge_forwards_in_order (B : Bridge) (cs : list Native.Call)
    (st : Native.St B) :
  let tr := trace_of (Native.perform_all cs) st in
  Native.invoked (state_after (Native.perform_all cs) st) =
    Native.invoked st ++ map Native.command_of cs /\
  count_settled tr = length cs /\
  length (outcomes tr) = length cs.
Proof.
  cbv zeta. revert st.
  induction cs as [|c rest IH]; intros st.
  - cbn. now rewrite app_nil_r.
  - destruct (perform_all_cons c rest st) as [Hst Htr].
    destruct (bridge_call_shape c st) as (Hinv & Hset & Hout).
    rewrite Hst, Htr.
    destruct (IH (state_after (Native.perform c) st)) as (I1 & I2 & I3).
    rewrite I1, Hinv. split; [now rewrite <- app_assoc|].
    unfold count_settled, outcomes in *.
    rewrite !filter_app, !length_app, I2, I3, Hset, Hout.
    split; reflexivity.
Qed.

(** X15.  [enumerateRecordingDevices] of the bridge backend answers with
    one entry per device name the native side returned, in the same
    order, each with the name as both its id and its label; when the
    command fails, the error wraps the command-execution error, which
    names the command. *)
Theorem bridge_enumerate_entries (B : Bridge) (st : Native.St B) :
  match fst (tauri_names B "enumerate_recording_devices"
               (Native.native_world st)) with
  | Ok names =>
      exists entries,
        result_of Native.enumerateRecordingDevices st = Ok entries /\
        map entry_deviceId entries = names /\
        map entry_label entries = names /\
        length entries = length names
  | Err thrown =>
      result_of Native.enumerateRecordingDevices st =
        Err (Native.EnumerateFailedErr
               (Native.CommandExecutionFailed "enumerate_recording_devices"
                  thrown))
  end /\
  Native.invoked (state_after Native.enumerateRecordingDevices st) =
    Native.invoked st ++ ["enumerate_recording_devices"].
Proof.
  unfold result_of, state_after, Native.enumerateRecordingDevices,
    Native.invoke.
  unfold_monad.
  destruct (tauri_names B "enumerate_recording_devices"
              (Native.native_world st)) as [[names|thrown] w1];
    cbn [fst snd]; split; try reflexivity.
  eexists. split; [reflexivity|].
  rewrite !map_map, length_map. cbn. now rewrite map_id.
Qed.

(* ================================================================== *)
(** * MediaRecorderServiceWeb.ts: properties *)
(* ================================================================== *)

Ltac unfold_web :=
  cbn [ServiceWeb.onSuccess ServiceWeb.onError ServiceWeb.watcher];
  unfold tryAsync, toast, call, command, get_currentSession,
    set_currentSession, set_recorder, is_active, bind, ret, emit.

Ltac unfold_web_in H :=
  cbn [ServiceWeb.onSuccess ServiceWeb.onError ServiceWeb.watcher] in H;
  unfold tryAsync, toast, call, command, get_currentSession,
    set_currentSession, set_recorder, is_active, bind, ret, emit in H.

Section WebRuns.
Context {P : Platform}.

Lemma web_init_run (st : St P) (s : RecordingSessionSettings) :
  currentSession st = None ->
  let c := AudioExact (deviceId s) 1 16000 in
  ServiceWeb.initRecordingSession s (ServiceWeb.watcher (fun _ => PVoid)) st =
  match getUserMedia P c (env st) with
  | (Ok opened, w1) =>
      (tt,
       {| env := w1;
          currentSession :=
            Some {| settings := s; stream := opened; recorder := None |} |},
       [EvGetUserMedia c (Ok opened); EvOnSuccess PVoid])
  | (Err thrown, w1) =>
      (tt, {| env := w1; currentSession := None |},
       [EvGetUserMedia c (Err thrown);
        EvOnError
          (WhisperingError "🎤 Microphone Access Error"
             "Unable to connect to your selected microphone"
             (ActionMoreDetails (Thrown thrown)))])
  end.
Proof.
  intros Hs. cbv zeta.
  unfold ServiceWeb.initRecordingSession, getStreamForDeviceId. unfold_web.
  rewrite Hs.
  destruct (getUserMedia P (AudioExact (deviceId s) 1 16000) (env st))
    as [[opened|thrown] w1]; cbn; rewrite ?Hs; reflexivity.
Qed.

Lemma web_start_run (st : St P) (session : RecordingSession) (id : string) :
  currentSession st = Some session ->
  let bps := bitsPerSecond (settings session) in
  ServiceWeb.startRecording id (ServiceWeb.watcher (fun _ => PVoid)) st =
  match new_MediaRecorder P (stream session) bps (env st) with
  | (Ok mr, w1) =>
      (tt,
       {| env := recorder_start P mr TIMESLICE_MS w1;
          currentSession := Some (capturing session mr id) |},
       [EvNewMediaRecorder (stream session) bps (Ok mr);
        EvRecorderStart mr TIMESLICE_MS; EvOnSuccess PVoid])
  | (Err thrown, w1) =>
      (tt, {| env := w1; currentSession := Some session |},
       [EvNewMediaRecorder (stream session) bps (Err thrown);
        EvOnError (RecordingSetupFailedErr thrown)])
  end.
Proof.
  intros Hs. cbv zeta. unfold ServiceWeb.startRecording. unfold_web.
  rewrite Hs.
  destruct (new_MediaRecorder P (stream session)
              (bitsPerSecond (settings session)) (env st))
    as [[mr|thrown] w1]; cbn; rewrite ?Hs; reflexivity.
Qed.

Lemma web_stop_run (final : list Blob) (w : world P)
    (s : RecordingSessionSettings) (held : MediaStream) (r : Recorder) :
  ServiceWeb.stopRecording final (ServiceWeb.watcher PBlob)
    {| env := w;
       currentSession :=
         Some {| settings := s; stream := held; recorder := Some r |} |} =
  (tt,
   {| env := recorder_stop P (mediaRecorder r) w;
      currentSession :=
        Some {| settings := s; stream := held;
                recorder := Some (pushed r (filter nonemptyb final)) |} |},
   [EvRecorderStop (mediaRecorder r);
    EvOnSuccess
      (PBlob (new_Blob (recordedChunks r ++ filter nonemptyb final)
                (mimeType (mediaRecorder r))))]).
Proof.
  unfold ServiceWeb.stopRecording, ServiceWeb.stopRecording_call.
  unfold_web. cbn. rewrite deliver_run.
  unfold ServiceWeb.stopRecording_on_stop. unfold_web. cbn. reflexivity.
Qed.






End WebRuns.

(** X17.  In MediaRecorderServiceWeb.ts [initRecordingSession] from
    [NO_SESSION] asks the browser for exactly the selected device and
    nothing else: one [getUserMedia] with the exact id (the empty id
    included), no permission probe, no listing, no second device.  If the
    device opens, the session holds that stream and the settings; if not,
    the error of the acquisition is passed to [onError] as it is and
    there is still no session. *)
Theorem service_web_init_is_direct (P : Platform) (st : St P)
    (s : RecordingSessionSettings) :
  currentSession st = None ->
  let c := AudioExact (deviceId s) 1 16000 in
  let run := ServiceWeb.initRecordingSession s
               (ServiceWeb.watcher (fun _ => PVoid)) in
  platform_calls (trace_of run st) =
    [EvGetUserMedia c (fst (getUserMedia P c (env st)))] /\
  match fst (getUserMedia P c (env st)) with
  | Ok opened =>
      outcomes (trace_of run st) = [EvOnSuccess PVoid] /\
      currentSession (state_after run st) =
        Some {| settings := s; stream := opened; recorder := None |}
  | Err thrown =>
      outcomes (trace_of run st) =
        [EvOnError
           (WhisperingError "🎤 Microphone Access Error"
              "Unable to connect to your selected microphone"
              (ActionMoreDetails (Thrown thrown)))] /\
      currentSession (state_after run st) = None
  end.
Proof.
  intros Hs. cbv zeta. unfold trace_of, state_after.
  rewrite (web_init_run st s Hs).
  destruct (getUserMedia P (AudioExact (deviceId s) 1 16000) (env st))
    as [[opened|thrown] w1]; repeat split.
Qed.

Lemma service_web_init_is_direct_witness :
  let st := fresh (P := Sim.platform Sim.second_works) Sim.boot in
  let c := AudioExact EmptyString 1 16000 in
  let run := ServiceWeb.initRecordingSession (Sim.auto 128000)
               (ServiceWeb.watcher (fun _ => PVoid)) in
  platform_calls (trace_of run st) =
    [EvGetUserMedia c (Err "OverconstrainedError")] /\
  outcomes (trace_of run st) =
    [EvOnError
       (WhisperingError "🎤 Microphone Access Error"
          "Unable to connect to your selected microphone"
          (ActionMoreDetails (Thrown "OverconstrainedError")))] /\
  currentSession (state_after run st) = None.
Proof.
  apply (service_web_init_is_direct (Sim.platform Sim.second_works)
           (fresh (P := Sim.platform Sim.second_works) Sim.boot)
           (Sim.auto 128000)).
  reflexivity.
Defined.

Section WebInvariant.
Context {P : Platform}.

Lemma web_step_keeps_session (i : Input) (st : St P) (s : RecordingSession) :
  currentSession st = Some s -> is_close i = false ->
  exists s',
    currentSession (state_after (ServiceWeb.step i) st) = Some s' /\
    settings s' = settings s /\ stream s' = stream s.
Proof.
  intros Hs Hi. unfold state_after.
  destruct i as [s0| |id| | |data|]; try discriminate Hi;
    cbn [ServiceWeb.step].
  - unfold ServiceWeb.initRecordingSession. unfold_web. rewrite Hs.
    cbn. eauto.
  - rewrite (web_start_run st s id Hs).
    destruct (new_MediaRecorder P (stream s) (bitsPerSecond (settings s))
                (env st)) as [[mr|thrown] w2]; cbn; eauto.
  - unfold ServiceWeb.stopRecording_call. unfold_web. rewrite Hs.
    destruct (active_recorder (Some s)); cbn; eauto.
  - unfold ServiceWeb.cancelRecording. unfold_web. rewrite Hs.
    destruct (recorder s) as [r|]; cbn; [|eauto].
    rewrite for_each_stop_track. cbn. rewrite Hs. eauto.
  - unfold dataavailable. unfold_monad. rewrite Hs.
    destruct (blob_size data =? 0)%nat; cbn; [eauto|].
    destruct (recorder s) as [r|]; cbn; [|eauto].
    rewrite Hs. eauto.
  - unfold ServiceWeb.stopRecording_on_stop. unfold_web. rewrite Hs.
    destruct (active_recorder (Some s)); cbn; eauto.
Qed.

Lemma web_run_cons (i : Input) (rest : list Input) (st : St P) :
  state_after (ServiceWeb.run (i :: rest)) st =
    state_after (ServiceWeb.run rest) (state_after (ServiceWeb.step i) st) /\
  trace_of (ServiceWeb.run (i :: rest)) st =
    trace_of (ServiceWeb.step i) st ++
    trace_of (ServiceWeb.run rest) (state_after (ServiceWeb.step i) st).
Proof.
  unfold ServiceWeb.run, state_after, trace_of. cbn [for_each]. unfold bind.
  destruct (ServiceWeb.step i st) as [[u st1] tr1]. cbn [fst snd].
  destruct (for_each rest ServiceWeb.step st1) as [[u2 st2] tr2]. now cbn.
Qed.

Lemma web_step_keeps_chunks_nonempty (i : Input) (st : St P) :
  chunks_nonempty st -> chunks_nonempty (state_after (ServiceWeb.step i) st).
Proof.
  intros Hinv. destruct i as [s| |id| | |data|]; cbn [ServiceWeb.step].
  - unfold state_after. destruct (currentSession st) as [session|] eqn:Hs.
    + unfold ServiceWeb.initRecordingSession. unfold_web. rewrite Hs.
      exact Hinv.
    + rewrite (web_init_run st s Hs).
      destruct (getUserMedia P _ (env st)) as [[opened|thrown] w1];
        exact I.
  - unfold state_after, ServiceWeb.closeRecordingSession. unfold_web.
    destruct (currentSession st) as [[s held [r|]]|] eqn:Hs;
      cbn [recorder stream fst snd]; try exact Hinv.
    rewrite for_each_stop_track. exact I.
  - unfold state_after. destruct (currentSession st) as [session|] eqn:Hs.
    + rewrite (web_start_run st session id Hs).
      destruct (new_MediaRecorder P _ _ (env st)) as [[mr|thrown] w1];
        cbn [fst snd].
      * unfold chunks_nonempty. cbn. constructor.
      * unfold chunks_nonempty in *. cbn [currentSession].
        now rewrite Hs in Hinv.
    + unfold ServiceWeb.startRecording. unfold_web. rewrite Hs. exact Hinv.
  - unfold state_after, ServiceWeb.stopRecording_call. unfold_web.
    destruct (active_recorder (currentSession st)) as [r|] eqn:Hr;
      cbn [fst snd]; [|exact Hinv].
    now apply (chunks_nonempty_same_session st).
  - unfold state_after, ServiceWeb.cancelRecording. unfold_web.
    destruct (currentSession st) as [[s held [r|]]|] eqn:Hs;
      cbn [recorder stream fst snd]; try exact Hinv.
    rewrite for_each_stop_track. cbn [fst snd currentSession].
    unfold chunks_nonempty. cbn. rewrite Hs. exact I.
  - now apply dataavailable_keeps_chunks_nonempty.
  - unfold state_after, ServiceWeb.stopRecording_on_stop. unfold_web.
    destruct (active_recorder (currentSession st)); exact Hinv.
Qed.

Lemma web_step_blob (i : Input) (st : St P) (artifact : Blob) :
  chunks_nonempty st ->
  In (EvOnSuccess (PBlob artifact)) (trace_of (ServiceWeb.step i) st) ->
  i = FireStop /\
  exists r,
    active_recorder (currentSession st) = Some r /\
    Forall nonempty (recordedChunks r) /\
    artifact = new_Blob (recordedChunks r) (mimeType (mediaRecorder r)).
Proof.
  intros Hinv Hin.
  destruct i as [s| |id| | |data|]; cbn [ServiceWeb.step] in Hin;
    unfold trace_of in Hin.
  - exfalso. destruct (currentSession st) as [session|] eqn:Hs.
    + unfold ServiceWeb.initRecordingSession in Hin. unfold_web_in Hin.
      rewrite Hs in Hin. split_trace Hin.
    + rewrite (web_init_run st s Hs) in Hin.
      destruct (getUserMedia P _ (env st)) as [[opened|thrown] w1];
        split_trace Hin.
  - exfalso. unfold ServiceWeb.closeRecordingSession in Hin.
    unfold_web_in Hin.
    destruct (currentSession st) as [[s held [r|]]|];
      cbn [recorder stream] in Hin; try rewrite for_each_stop_track in Hin;
      split_trace Hin.
  - exfalso. destruct (currentSession st) as [session|] eqn:Hs.
    + rewrite (web_start_run st session id Hs) in Hin.
      destruct (new_MediaRecorder P _ _ (env st)) as [[mr|thrown] w1];
        split_trace Hin.
    + unfold ServiceWeb.startRecording in Hin. unfold_web_in Hin.
      rewrite Hs in Hin. split_trace Hin.
  - exfalso. unfold ServiceWeb.stopRecording_call in Hin. unfold_web_in Hin.
    destruct (active_recorder (currentSession st)); split_trace Hin.
  - exfalso. unfold ServiceWeb.cancelRecording in Hin. unfold_web_in Hin.
    destruct (currentSession st) as [[s held [r|]]|];
      cbn [recorder stream] in Hin; try rewrite for_each_stop_track in Hin;
      split_trace Hin.
  - exfalso. unfold dataavailable in Hin. unfold_monad_in Hin.
    destruct (currentSession st) as [[s held [r|]]|];
      cbn [recorder] in Hin; try destruct (blob_size data =? 0)%nat;
      split_trace Hin.
  - split; [reflexivity|].
    unfold ServiceWeb.stopRecording_on_stop in Hin. unfold_web_in Hin.
    unfold chunks_nonempty in Hinv.
    destruct (active_recorder (currentSession st)) as [r|];
      cbn in Hin; [|intuition discriminate].
    destruct Hin as [[= <-]|Hin]; [|intuition discriminate].
    exists r. auto.
Qed.

End WebInvariant.

(** X18.  In MediaRecorderServiceWeb.ts a session, once open, keeps its
    settings and its stream until [closeRecordingSession] is called: no
    other call and no recorder event replaces the stream (there is no
    refresh), so every recorder of the session is constructed on the
    stream the session was opened with. *)
Theorem service_web_keeps_its_stream (P : Platform) (inputs : list Input)
    (st : St P) (s : RecordingSession) :
  currentSession st = Some s ->
  forallb (fun i => negb (is_close i)) inputs = true ->
  (exists s',
     currentSession (state_after (ServiceWeb.run inputs) st) = Some s' /\
     settings s' = settings s /\ stream s' = stream s) /\
  (forall on bps made,
     In (EvNewMediaRecorder on bps made)
        (trace_of (ServiceWeb.run inputs) st) ->
     on = stream s /\ bps = bitsPerSecond (settings s)).
Proof.
  revert st s.
  induction inputs as [|i rest IH]; intros st s Hs Hin.
  - split; [exists s; auto|intros on bps made []].
  - cbn [forallb] in Hin. apply andb_prop in Hin as [Hi Hrest].
    apply negb_true_iff in Hi.
    destruct (web_step_keeps_session i st s Hs Hi) as (s1 & Hs1 & Hset & Hstr).
    destruct (web_run_cons i rest st) as [Hst Htr]. rewrite Hst, Htr.
    destruct (IH _ s1 Hs1 Hrest) as [(s' & Hs' & Hset' & Hstr') Hrec].
    split.
    + exists s'. split; [exact Hs'|]. split; congruence.
    + intros on bps made Hev. apply in_app_or in Hev as [Hev|Hev].
      * clear Hrec. unfold trace_of in Hev.
        destruct i as [s0| |id| | |data|]; try discriminate Hi;
          cbn [ServiceWeb.step] in Hev.
        -- unfold ServiceWeb.initRecordingSession in Hev. unfold_web_in Hev.
           rewrite Hs in Hev. split_trace Hev.
        -- rewrite (web_start_run st s id Hs) in Hev.
           destruct (new_MediaRecorder P _ _ (env st)) as [[mr|thrown] w1];
             split_trace Hev; injection Hev as <- <- _; auto.
        -- unfold ServiceWeb.stopRecording_call in Hev. unfold_web_in Hev.
           rewrite Hs in Hev.
           destruct (active_recorder (Some s)); split_trace Hev.
        -- unfold ServiceWeb.cancelRecording in Hev. unfold_web_in Hev.
           rewrite Hs in Hev.
           destruct (recorder s) as [r|]; cbn [recorder stream] in Hev;
             try rewrite for_each_stop_track in Hev; split_trace Hev.
        -- unfold dataavailable in Hev. unfold_monad_in Hev.
           rewrite Hs in Hev.
           destruct (blob_size data =? 0)%nat; [split_trace Hev|].
           destruct (recorder s); split_trace Hev.
        -- unfold ServiceWeb.stopRecording_on_stop in Hev.
           unfold_web_in Hev. rewrite Hs in Hev.
           destruct (active_recorder (Some s)); split_trace Hev.
      * destruct (Hrec on bps made Hev) as [-> ->]. split; congruence.
Qed.

Lemma service_web_keeps_its_stream_witness :
  let held := {| stream_id := 1; getTracks := [ {| track_id := 1 |} ] |} in
  let inputs :=
    [CallStart "c1"; FireDataAvailable Scenario.a; CallCancel;
     CallStart "c2"; CallStop; FireStop] in
  (exists s',
     currentSession (state_after (ServiceWeb.run inputs) Scenario.opened) =
       Some s' /\
     settings s' = Sim.auto 128000 /\ stream s' = held) /\
  (forall on bps made,
     In (EvNewMediaRecorder on bps made)
        (trace_of (ServiceWeb.run inputs) Scenario.opened) ->
     on = held /\ bps = 128000%N).
Proof.
  apply (service_web_keeps_its_stream (Sim.platform Sim.second_works)
           [CallStart "c1"; FireDataAvailable Scenario.a; CallCancel;
            CallStart "c2"; CallStop; FireStop]
           Scenario.opened
           {| settings := Sim.auto 128000;
              stream := {| stream_id := 1;
                           getTracks := [ {| track_id := 1 |} ] |};
              recorder := None |});
    reflexivity.
Defined.

(** X19.  In MediaRecorderServiceWeb.ts too, every chunk held by the
    active capture has data in every state reached from a fresh service.
    A blob is handed to [onSuccess] by the stop listener only, and it is
    the blob built from the chunk list of the recorder held when the
    listener runs, typed with that recorder's [mimeType]; every chunk of
    that list has data. *)
Theorem service_web_chunks_are_nonempty (P : Platform) (w : world P)
    (inputs : list Input) :
  chunks_nonempty (state_after (ServiceWeb.run inputs) (fresh w)) /\
  (forall artifact,
     In (EvOnSuccess (PBlob artifact))
        (trace_of (ServiceWeb.run inputs) (fresh w)) ->
     exists pre post r,
       inputs = pre ++ FireStop :: post /\
       active_recorder
         (currentSession (state_after (ServiceWeb.run pre) (fresh w))) =
         Some r /\
       Forall nonempty (recordedChunks r) /\
       artifact = new_Blob (recordedChunks r) (mimeType (mediaRecorder r))).
Proof.
  assert (G : forall (st : St P),
            chunks_nonempty st ->
            chunks_nonempty (state_after (ServiceWeb.run inputs) st) /\
            (forall artifact,
               In (EvOnSuccess (PBlob artifact))
                  (trace_of (ServiceWeb.run inputs) st) ->
               exists pre post r,
                 inputs = pre ++ FireStop :: post /\
                 active_recorder
                   (currentSession (state_after (ServiceWeb.run pre) st)) =
                   Some r /\
                 Forall nonempty (recordedChunks r) /\
                 artifact =
                   new_Blob (recordedChunks r) (mimeType (mediaRecorder r)))).
  { induction inputs as [|i rest IH]; intros st Hinv.
    - split; [exact Hinv|]. intros artifact [].
    - destruct (web_run_cons i rest st) as [Hst Htr]. rewrite Hst, Htr.
      pose proof (web_step_keeps_chunks_nonempty i st Hinv) as Hstep.
      destruct (IH _ Hstep) as [I1 I2]. split; [exact I1|].
      intros artifact Hin. apply in_app_or in Hin as [Hin|Hin].
      + destruct (web_step_blob i st artifact Hinv Hin)
          as (-> & r & Hr & Hne & Hart).
        exists [], rest, r. repeat split; assumption.
      + destruct (I2 artifact Hin) as (pre & post & r & -> & Hr & Hne & Hart).
        exists (i :: pre), post, r. split; [reflexivity|].
        destruct (web_run_cons i pre st) as [Hpre _]. rewrite Hpre.
        repeat split; assumption. }
  apply G. exact I.
Qed.

(** X20.  In MediaRecorderServiceWeb.ts too, [stopRecording] hands out
    the blob of the chunks held and delivered, in order, and leaves the
    recorder in the session: a [closeRecordingSession] right after it
    reports the recording-in-progress error, while [cancelRecording]
    followed by [closeRecordingSession] ends the session. *)
Theorem service_web_stop_keeps_the_recorder (P : Platform) (w : world P)
    (s : RecordingSessionSettings) (held : MediaStream) (r : Recorder)
    (final : list Blob) :
  let st :=
    {| env := w;
       currentSession :=
         Some {| settings := s; stream := held; recorder := Some r |} |} in
  let void := ServiceWeb.watcher (fun _ : unit => PVoid) in
  let stopped :=
    state_after (ServiceWeb.stopRecording final (ServiceWeb.watcher PBlob)) st
  in
  outcomes
    (trace_of (ServiceWeb.stopRecording final (ServiceWeb.watcher PBlob)) st) =
    [EvOnSuccess
       (PBlob (new_Blob (recordedChunks r ++ filter nonemptyb final)
                 (mimeType (mediaRecorder r))))] /\
  session_state stopped = SESSION_OPEN_CAPTURING /\
  ServiceWeb.closeRecordingSession void stopped =
    (tt, stopped, [EvOnError RecordingInProgressErr]) /\
  session_state
    (state_after
       (ServiceWeb.cancelRecording void ;; ServiceWeb.closeRecordingSession void)
       stopped) = NO_SESSION.
Proof.
  cbv zeta. unfold state_after, trace_of. rewrite web_stop_run.
  cbn [fst snd]. split; [reflexivity|]. split; [reflexivity|].
  split; [reflexivity|].
  unfold bind, ServiceWeb.cancelRecording, ServiceWeb.closeRecordingSession.
  unfold_web. cbn. rewrite for_each_stop_track. cbn.
  rewrite for_each_stop_track. reflexivity.
Qed.

(* ================================================================== *)
(** * When [newRecorder.start()] throws *)
(* ================================================================== *)


Section Throwing.
Context {P : Platform} (S : MayThrow.Starter P).

Lemma maythrow_start_run (st : St P) (session : RecordingSession)
    (id : string) :
  currentSession st = Some session ->
  MayThrow.startRecording S id void_observer st =
  let '(st1, tr1) := staleness_check session st in
  let bps := bitsPerSecond (settings session) in
  let '(made, w2) := new_MediaRecorder P (stream session) bps (env st1) in
  match made with
  | Ok mr =>
      let '(started, w3) := MayThrow.try_start S mr TIMESLICE_MS w2 in
      let st3 :=
        {| env := w3;
           currentSession :=
             option_map (fun s => capturing s mr id) (currentSession st1) |} in
      match started with
      | Ok _ =>
          (Ok tt, st3,
           [EvOnMutate] ++ tr1 ++
           [EvNewMediaRecorder (stream session) bps (Ok mr);
            EvRecorderStart mr TIMESLICE_MS; EvOnSuccess PVoid; EvOnSettled])
      | Err thrown =>
          (Err thrown, st3,
           [EvOnMutate] ++ tr1 ++
           [EvNewMediaRecorder (stream session) bps (Ok mr);
            EvRecorderStart mr TIMESLICE_MS])
      end
  | Err thrown =>
      (Ok tt,
       {| env := w2; currentSession := currentSession st1 |},
       [EvOnMutate] ++ tr1 ++
       [EvNewMediaRecorder (stream session) bps (Err thrown);
        EvOnError (RecordingSetupFailedErr thrown); EvOnSettled])
  end.
Proof.
  intros Hs. unfold MayThrow.startRecording, staleness_check.
  unfold bind at 1. cbn [onMutate void_observer observer].
  unfold emit at 1. unfold bind at 1. unfold get_currentSession at 1.
  rewrite Hs. unfold bind at 1. unfold is_active at 1.
  destruct (stream_active P (stream session) (env st)); cbn [negb].
  - unfold_monad. cbn.
    destruct (new_MediaRecorder P (stream session)
                (bitsPerSecond (settings session)) (env st))
      as [[mr|thrown] w2]; [|reflexivity]. cbn.
    destruct (MayThrow.try_start S mr TIMESLICE_MS w2)
      as [[[]|thrown] w3]; reflexivity.
  - unfold bind at 1. unfold bind at 1. unfold toast at 1, emit at 1.
    rewrite refresh_run.
    destruct (resolveSessionStream (settings session) st)
      as [[[s'|e] st1] tr1]; unfold_monad; cbn;
      (destruct (new_MediaRecorder P (stream session)
                   (bitsPerSecond (settings session)) (env st1))
         as [[mr|thrown] w2]; cbn;
       [destruct (MayThrow.try_start S mr TIMESLICE_MS w2)
          as [[[]|thrown] w3]; cbn|]);
      f_equal; same_trace.
Qed.

Lemma maythrow_web_start_run (st : St P) (session : RecordingSession)
    (id : string) :
  currentSession st = Some session ->
  let bps := bitsPerSecond (settings session) in
  MayThrow.web_startRecording S id (ServiceWeb.watcher (fun _ => PVoid)) st =
  match new_MediaRecorder P (stream session) bps (env st) with
  | (Ok mr, w1) =>
      match MayThrow.try_start S mr TIMESLICE_MS w1 with
      | (Ok _, w2) =>
          (Ok tt,
           {| env := w2; currentSession := Some (capturing session mr id) |},
           [EvNewMediaRecorder (stream session) bps (Ok mr);
            EvRecorderStart mr TIMESLICE_MS; EvOnSuccess PVoid])
      | (Err thrown, w2) =>
          (Err thrown,
           {| env := w2; currentSession := Some (capturing session mr id) |},
           [EvNewMediaRecorder (stream session) bps (Ok mr);
            EvRecorderStart mr TIMESLICE_MS])
      end
  | (Err thrown, w1) =>
      (Ok tt, {| env := w1; currentSession := Some session |},
       [EvNewMediaRecorder (stream session) bps (Err thrown);
        EvOnError (RecordingSetupFailedErr thrown)])
  end.
Proof.
  intros Hs. cbv zeta. unfold MayThrow.web_startRecording. unfold_web.
  rewrite Hs.
  destruct (new_MediaRecorder P (stream session)
              (bitsPerSecond (settings session)) (env st))
    as [[mr|thrown] w1]; cbn; rewrite ?Hs; [|reflexivity].
  destruct (MayThrow.try_start S mr TIMESLICE_MS w1)
    as [[[]|thrown] w2]; cbn; reflexivity.
Qed.

End Throwing.

(** Where [start()] returns, [startRecording] with a [start()] that may
    throw is the [startRecording] of the embedding, in both files. *)
Lemma start_agrees_when_start_returns (P : Platform) (st : St P)
    (id : string) :
  MayThrow.startRecording (MayThrow.returning P) id void_observer st =
    (Ok tt, state_after (startRecording id void_observer) st,
     trace_of (startRecording id void_observer) st) /\
  MayThrow.web_startRecording (MayThrow.returning P) id
    (ServiceWeb.watcher (fun _ => PVoid)) st =
    (Ok tt,
     state_after
       (ServiceWeb.startRecording id (ServiceWeb.watcher (fun _ => PVoid))) st,
     trace_of
       (ServiceWeb.startRecording id (ServiceWeb.watcher (fun _ => PVoid))) st).
Proof.
  unfold state_after, trace_of.
  destruct (currentSession st) as [session|] eqn:Hs.
  - rewrite (maythrow_start_run _ st session id Hs),
      (start_run st session id Hs),
      (maythrow_web_start_run _ st session id Hs),
      (web_start_run st session id Hs).
    cbv zeta. split.
    + destruct (staleness_check session st) as [st1 tr1].
      destruct (new_MediaRecorder P (stream session)
                  (bitsPerSecond (settings session)) (env st1))
        as [[mr|thrown] w2]; reflexivity.
    + destruct (new_MediaRecorder P (stream session)
                  (bitsPerSecond (settings session)) (env st))
        as [[mr|thrown] w2]; reflexivity.
  - unfold MayThrow.startRecording, startRecording,
      MayThrow.web_startRecording, ServiceWeb.startRecording.
    unfold_web. unfold_monad. rewrite Hs. split; reflexivity.
Qed.


(** A run of the above in a browser whose [start()] throws: after init,
    the call rejects, only [onMutate] has fired, and the service is left
    capturing. *)
Example start_throws_and_nothing_settles :
  let run :=
    MayThrow.startRecording
      (MayThrow.refusing (Sim.platform Sim.second_works)) "c1" void_observer in
  result_of run Scenario.opened = Err "NotSupportedError" /\
  callbacks (trace_of run Scenario.opened) = [EvOnMutate] /\
  session_state (state_after run Scenario.opened) = SESSION_OPEN_CAPTURING.
Proof. repeat split. Qed.

